(** * openmmtools.forces: reaction-field forces and the nonbonded-force locator

    A shallow embedding of [openmmtools/forces.py].

    - Python floats are modelled by exact rationals ([Q]): rounding, overflow
      and underflow of IEEE doubles are outside the model.  What Python does
      on a zero base of a negative power and on a zero divisor
      ([ZeroDivisionError]) is written out, since [Q] itself is total there.
    - A [simtk.unit.Quantity] is a value together with a length unit; the
      power of the length it measures is an index of its type, so that only
      quantities of the same dimension can be subtracted.
    - The engine's objects ([NonbondedForce], [CustomNonbondedForce],
      [System]) are records holding what the engine stores, in its own units
      (nanometres).  Methods that mutate [self] pass the record explicitly.
    - Raising is modelled by the [result] monad. *)

From Stdlib Require Import List String Ascii Bool Arith ZArith QArith Qround Qabs Qpower.
From Stdlib Require Import Lia Lqa DecimalString Permutation.
Import ListNotations.

Local Open Scope list_scope.
Local Open Scope Q_scope.

(** ** Exceptions and the error monad *)

Inductive exn : Type :=
| ValueError (msg : string)
| AttributeError (msg : string)
| ZeroDivisionError
| OpenMMException (msg : string).

Inductive result (A : Type) : Type :=
| Return (a : A)
| Raise (e : exn).

Arguments Return {A} a.
Arguments Raise {A} e.

Definition bind {A B : Type} (m : result A) (k : A -> result B) : result B :=
  match m with
  | Return a => k a
  | Raise e => Raise e
  end.

Declare Scope result_scope.
Delimit Scope result_scope with result.
Notation "x <- m ;; k" := (bind m (fun x => k))
  (at level 61, m at next level, right associativity) : result_scope.
Notation "' pat <- m ;; k" := (bind m (fun x => match x with pat => k end))
  (at level 61, pat pattern, m at next level, right associativity) : result_scope.

(** [for x in xs: body], where the body updates one object and may raise. *)
Fixpoint for_each {A S : Type} (xs : list A) (body : A -> S -> result S) (s : S)
  : result S :=
  match xs with
  | [] => Return s
  | x :: rest => bind (body x s) (for_each rest body)
  end.

(** [range(n)] *)
Definition range (n : nat) : list nat := seq 0%nat n.

(** ** simtk.unit: lengths with units *)

Module simtk_unit.

Inductive LengthUnit : Type := angstrom | nanometer.

(** A quantity [_value * unit_of ^ dim]. *)
Record Quantity (dim : Z) : Type := mkQuantity {
  _value : Q;
  unit_of : LengthUnit
}.

Arguments mkQuantity {dim} _ _.
Arguments _value {dim} _.
Arguments unit_of {dim} _.

(** How many nanometres one unit is. *)
Definition nanometers_per (u : LengthUnit) : Q :=
  match u with
  | angstrom => 1 # 10
  | nanometer => 1
  end.

(** [q.value_in_unit(u)] *)
Definition value_in_unit {dim : Z} (q : Quantity dim) (u : LengthUnit) : Q :=
  _value q * (nanometers_per (unit_of q) / nanometers_per u) ^ dim.

(** The only unit system the module uses; its length unit is the nanometre. *)
Inductive UnitSystem : Type := md_unit_system.

Definition length_unit_of (s : UnitSystem) : LengthUnit :=
  match s with
  | md_unit_system => nanometer
  end.

(** [q.value_in_unit_system(s)] *)
Definition value_in_unit_system {dim : Z} (q : Quantity dim) (s : UnitSystem) : Q :=
  value_in_unit q (length_unit_of s).

(** [pow(x, n)] on floats: a zero base with a negative exponent raises.
    The [OverflowError] of a result beyond the range of a double is outside
    the model, as are rounding and underflow. *)
Definition float_pow (x : Q) (n : Z) : result Q :=
  if Qeq_bool x 0 && (n <? 0)%Z then Raise ZeroDivisionError
  else Return (x ^ n).

(** [q ** n]: [Quantity(pow(q._value, n), pow(q.unit, n))] *)
Definition pow {dim : Z} (q : Quantity dim) (n : Z) : result (Quantity (dim * n)%Z) :=
  bind (float_pow (_value q) n) (fun v => Return (mkQuantity v (unit_of q))).

(** [q * x] for a scalar [x] *)
Definition mul_scalar {dim : Z} (q : Quantity dim) (x : Q) : Quantity dim :=
  mkQuantity (_value q * x) (unit_of q).

(** [q / x] for a scalar [x], computed as [q * pow(x, -1.0)]: a zero divisor
    raises. *)
Definition div_scalar {dim : Z} (q : Quantity dim) (x : Q) : result (Quantity dim) :=
  bind (float_pow x (-1)) (fun y => Return (mul_scalar q y)).

(** [-q] *)
Definition neg {dim : Z} (q : Quantity dim) : Quantity dim :=
  mkQuantity (- _value q) (unit_of q).

(** [a + b]: the result is in the unit of [a]. *)
Definition add {dim : Z} (a b : Quantity dim) : Quantity dim :=
  mkQuantity (_value a + value_in_unit b (unit_of a)) (unit_of a).

(** [a - b] is [a + (-b)]. *)
Definition sub {dim : Z} (a b : Quantity dim) : Quantity dim :=
  add a (neg b).

(** [x * unit.angstroms] and [x * unit.nanometers] *)
Definition angstroms (x : Q) : Quantity 1 := mkQuantity x angstrom.
Definition nanometers (x : Q) : Quantity 1 := mkQuantity x nanometer.

End simtk_unit.

Import simtk_unit.

(** ** ["{:f}".format(x)] *)

(** The nearest integer, ties to the even one. *)
Definition round_half_even (q : Q) : Z :=
  let f := Qfloor q in
  match ((q - inject_Z f) ?= (1 # 2))%Q with
  | Lt => f
  | Eq => if Z.even f then f else (f + 1)%Z
  | Gt => (f + 1)%Z
  end.

Definition decimal_of_Z (n : Z) : string :=
  NilZero.string_of_uint (N.to_uint (Z.to_N n)).

(** Fixed-point notation with six digits after the point. *)
Definition format_f (x : Q) : string :=
  let n := round_half_even (Qabs x * 1000000) in
  ((if Qlt_le_dec x 0 then "-" else "")
   ++ decimal_of_Z (n / 1000000)
   ++ "."
   ++ substring 1 6 (decimal_of_Z (1000000 + n mod 1000000)))%string.

(** ** The engine's objects *)

(** [openmm.NonbondedForce]: what the module reads of it. *)
Record ParticleInfo : Type := mkParticle {
  p_charge : Q;
  p_sigma : Q;
  p_epsilon : Q
}.

Record ExceptionInfo : Type := mkException {
  e_particle1 : nat;
  e_particle2 : nat;
  e_chargeProd : Q;
  e_sigma : Q;
  e_epsilon : Q
}.

Record NonbondedForce : Type := mkNonbondedForce {
  nb_cutoffDistance : Q;          (* nanometres *)
  nb_rfDielectric : Q;
  nb_particles : list ParticleInfo;
  nb_exceptions : list ExceptionInfo
}.

(** The Python wrapper attaches the unit to the stored value. *)
Definition getCutoffDistance (f : NonbondedForce) : Quantity 1 :=
  nanometers (nb_cutoffDistance f).

Definition getReactionFieldDielectric (f : NonbondedForce) : Q :=
  nb_rfDielectric f.

Definition getNumParticles (f : NonbondedForce) : nat :=
  List.length (nb_particles f).

Definition getNumExceptions (f : NonbondedForce) : nat :=
  List.length (nb_exceptions f).

(** An index out of range makes the engine throw. *)
Definition getParticleParameters (f : NonbondedForce) (index : nat)
  : result (Q * Q * Q) :=
  match nth_error (nb_particles f) index with
  | Some p => Return (p_charge p, p_sigma p, p_epsilon p)
  | None => Raise (OpenMMException "Index out of range")
  end.

Definition getExceptionParameters (f : NonbondedForce) (index : nat)
  : result (nat * nat * Q * Q * Q) :=
  match nth_error (nb_exceptions f) index with
  | Some e =>
      Return (e_particle1 e, e_particle2 e, e_chargeProd e, e_sigma e, e_epsilon e)
  | None => Raise (OpenMMException "Index out of range")
  end.

(** [openmm.CustomNonbondedForce] *)
Inductive NonbondedMethod : Type := NoCutoff | CutoffNonPeriodic | CutoffPeriodic.

Record CustomNonbondedForce : Type := mkCustomNonbondedForce {
  energyFunction : string;
  perParticleParameters : list string;
  nonbondedMethod : NonbondedMethod;
  cutoffDistance : Q;             (* nanometres *)
  useLongRangeCorrection : bool;
  useSwitchingFunction : bool;
  switchingDistance : Q;          (* nanometres *)
  particles : list (list Q);
  exclusions : list (nat * nat)
}.

(** [CustomNonbondedForce(energy)]: the engine's defaults. *)
Definition CustomNonbondedForce_init (energy : string) : CustomNonbondedForce :=
  mkCustomNonbondedForce energy [] NoCutoff 1 false false (-1) [] [].

Definition addPerParticleParameter (self : CustomNonbondedForce) (name : string)
  : CustomNonbondedForce :=
  mkCustomNonbondedForce
    (energyFunction self) (perParticleParameters self ++ [name])
    (nonbondedMethod self) (cutoffDistance self) (useLongRangeCorrection self)
    (useSwitchingFunction self) (switchingDistance self)
    (particles self) (exclusions self).

Definition setNonbondedMethod (self : CustomNonbondedForce) (method : NonbondedMethod)
  : CustomNonbondedForce :=
  mkCustomNonbondedForce
    (energyFunction self) (perParticleParameters self)
    method (cutoffDistance self) (useLongRangeCorrection self)
    (useSwitchingFunction self) (switchingDistance self)
    (particles self) (exclusions self).

(** The wrapper converts a length to the engine's unit before storing it. *)
Definition setCutoffDistance (self : CustomNonbondedForce) (distance : Quantity 1)
  : CustomNonbondedForce :=
  mkCustomNonbondedForce
    (energyFunction self) (perParticleParameters self)
    (nonbondedMethod self) (value_in_unit_system distance md_unit_system)
    (useLongRangeCorrection self)
    (useSwitchingFunction self) (switchingDistance self)
    (particles self) (exclusions self).

Definition setUseLongRangeCorrection (self : CustomNonbondedForce) (use : bool)
  : CustomNonbondedForce :=
  mkCustomNonbondedForce
    (energyFunction self) (perParticleParameters self)
    (nonbondedMethod self) (cutoffDistance self) use
    (useSwitchingFunction self) (switchingDistance self)
    (particles self) (exclusions self).

Definition setUseSwitchingFunction (self : CustomNonbondedForce) (use : bool)
  : CustomNonbondedForce :=
  mkCustomNonbondedForce
    (energyFunction self) (perParticleParameters self)
    (nonbondedMethod self) (cutoffDistance self) (useLongRangeCorrection self)
    use (switchingDistance self)
    (particles self) (exclusions self).

Definition setSwitchingDistance (self : CustomNonbondedForce) (distance : Quantity 1)
  : CustomNonbondedForce :=
  mkCustomNonbondedForce
    (energyFunction self) (perParticleParameters self)
    (nonbondedMethod self) (cutoffDistance self) (useLongRangeCorrection self)
    (useSwitchingFunction self) (value_in_unit_system distance md_unit_system)
    (particles self) (exclusions self).

Definition addParticle (self : CustomNonbondedForce) (parameters : list Q)
  : CustomNonbondedForce :=
  mkCustomNonbondedForce
    (energyFunction self) (perParticleParameters self)
    (nonbondedMethod self) (cutoffDistance self) (useLongRangeCorrection self)
    (useSwitchingFunction self) (switchingDistance self)
    (particles self ++ [parameters]) (exclusions self).

Definition addExclusion (self : CustomNonbondedForce) (particle1 particle2 : nat)
  : CustomNonbondedForce :=
  mkCustomNonbondedForce
    (energyFunction self) (perParticleParameters self)
    (nonbondedMethod self) (cutoffDistance self) (useLongRangeCorrection self)
    (useSwitchingFunction self) (switchingDistance self)
    (particles self) (exclusions self ++ [(particle1, particle2)]).

(** A force of a system: a nonbonded force, a custom nonbonded force (the
    reaction-field forces below are of this class), or a force of another
    class, of which only the class name matters here. *)
Inductive Force : Type :=
| F_NonbondedForce (f : NonbondedForce)
| F_CustomNonbondedForce (f : CustomNonbondedForce)
| F_Other (class_name : string).

(** [isinstance(force, openmm.NonbondedForce)], with the force seen at that
    class when it is one. *)
Definition isinstance_NonbondedForce (force : Force) : option NonbondedForce :=
  match force with
  | F_NonbondedForce f => Some f
  | _ => None
  end.

Record System : Type := mkSystem {
  getForces : list Force
}.

(** ** Utility functions *)

(** The loop of [find_nonbonded_force]; [nonbonded_force] is the local
    variable, [None] at first. *)
Fixpoint find_nonbonded_force_loop (forces : list Force)
    (nonbonded_force : option NonbondedForce) : result (option NonbondedForce) :=
  match forces with
  | [] => Return nonbonded_force
  | force :: rest =>
      match isinstance_NonbondedForce force with
      | Some f =>
          match nonbonded_force with
          | Some _ => Raise (ValueError "The System has multiple NonbondedForces")
          | None => find_nonbonded_force_loop rest (Some f)
          end
      | None => find_nonbonded_force_loop rest nonbonded_force
      end
  end.

Definition find_nonbonded_force (system : System) : result (option NonbondedForce) :=
  find_nonbonded_force_loop (getForces system) None.

(** A generator object of [iterate_nonbonded_forces]: created and not yet
    run, suspended at the [yield] with the forces still to visit, or
    finished. *)
Inductive generator : Type :=
| Created (system : System)
| Suspended (rest : list Force)
| Finished.

Definition iterate_nonbonded_forces (system : System) : generator :=
  Created system.

(** Run the loop from the forces still to visit up to the next [yield]. *)
Fixpoint resume (forces : list Force) : option NonbondedForce * generator :=
  match forces with
  | [] => (None, Finished)
  | force :: rest =>
      match isinstance_NonbondedForce force with
      | Some f => (Some f, Suspended rest)
      | None => resume rest
      end
  end.

(** [next(g)]: the force yielded, or [None] for [StopIteration]. *)
Definition next (g : generator) : option NonbondedForce * generator :=
  match g with
  | Created system => resume (getForces system)
  | Suspended rest => resume rest
  | Finished => (None, Finished)
  end.

(** [list(g)], by at most [fuel] calls of [next]: the forces yielded, and
    whether [StopIteration] was reached. *)
Fixpoint collect (fuel : nat) (g : generator) : list NonbondedForce * bool :=
  match fuel with
  | O => ([], false)
  | S fuel' =>
      match next g with
      | (Some f, g') => let (fs, stopped) := collect fuel' g' in (f :: fs, stopped)
      | (None, _) => ([], true)
      end
  end.

(** The nonbonded forces of a system, in the order of registration. *)
Definition nonbonded_forces (system : System) : list NonbondedForce :=
  flat_map (fun force =>
              match isinstance_NonbondedForce force with
              | Some f => [f]
              | None => []
              end) (getForces system).

(** ** Reaction field *)

(** The default arguments of the constructors and of the copy constructors. *)
Definition default_cutoff_distance : Quantity 1 := angstroms 15.
Definition default_switch_width : option (Quantity 1) := Some (angstroms 1).
Definition default_reaction_field_dielectric : Q := 783 # 10.

Module UnshiftedReactionFieldForce.
Section Class.

(** [openmmtools.constants.ONE_4PI_EPS0], already in the engine's units. *)
Variable ONE_4PI_EPS0 : Q.

(** The local variable [k_rf] of [__init__]. *)
Definition k_rf (cutoff_distance : Quantity 1) (reaction_field_dielectric : Q)
  : result (Quantity (-3)) :=
  (p <- pow cutoff_distance (-3) ;;
   div_scalar (mul_scalar p (reaction_field_dielectric - 1))
              (2 * reaction_field_dielectric + 1))%result.

(** The local variable [energy_expression] of [__init__]. *)
Definition energy_expression (k_rf : Quantity (-3)) : string :=
  ("ONE_4PI_EPS0*chargeprod*(r^(-1) + k_rf*r^2);"
   ++ "chargeprod = charge1*charge2;"
   ++ ("k_rf = " ++ format_f (value_in_unit_system k_rf md_unit_system) ++ ";")
   ++ ("ONE_4PI_EPS0 = " ++ format_f ONE_4PI_EPS0 ++ ";"))%string.

(** [UnshiftedReactionFieldForce(cutoff_distance, switch_width,
    reaction_field_dielectric)]; [switch_width] is [None] for a truncated
    potential. *)
Definition __init__ (cutoff_distance : Quantity 1)
    (switch_width : option (Quantity 1)) (reaction_field_dielectric : Q)
  : result CustomNonbondedForce :=
  (k_rf <- k_rf cutoff_distance reaction_field_dielectric ;;
   let self := CustomNonbondedForce_init (energy_expression k_rf) in
   let self := addPerParticleParameter self "charge" in
   let self := setNonbondedMethod self CutoffPeriodic in
   let self := setCutoffDistance self cutoff_distance in
   let self := setUseLongRangeCorrection self false in
   match switch_width with
   | Some switch_width =>
       let self := setUseSwitchingFunction self true in
       Return (setSwitchingDistance self (sub cutoff_distance switch_width))
   | None =>
       Return (setUseSwitchingFunction self false)
   end)%result.

(** The argument is [None] when the caller passes the absent value. *)
Definition from_nonbonded_force (nonbonded_force : option NonbondedForce)
    (switch_width : option (Quantity 1)) : result CustomNonbondedForce :=
  match nonbonded_force with
  | None =>
      Raise (AttributeError "'NoneType' object has no attribute 'getCutoffDistance'")
  | Some nonbonded_force =>
      (let cutoff_distance := getCutoffDistance nonbonded_force in
       let reaction_field_dielectric := getReactionFieldDielectric nonbonded_force in
       reaction_field_force <-
         __init__ cutoff_distance switch_width reaction_field_dielectric ;;
       reaction_field_force <-
         for_each (range (getNumParticles nonbonded_force))
           (fun particle_index reaction_field_force =>
              '(charge, sigma, epsilon) <-
                getParticleParameters nonbonded_force particle_index ;;
              Return (addParticle reaction_field_force [charge]))
           reaction_field_force ;;
       reaction_field_force <-
         for_each (range (getNumExceptions nonbonded_force))
           (fun exception_index reaction_field_force =>
              '(iatom, jatom, chargeprod, sigma, epsilon) <-
                getExceptionParameters nonbonded_force exception_index ;;
              Return (addExclusion reaction_field_force iatom jatom))
           reaction_field_force ;;
       Return reaction_field_force)%result
  end.

Definition from_system (system : System) (switch_width : option (Quantity 1))
  : result CustomNonbondedForce :=
  (nonbonded_force <- find_nonbonded_force system ;;
   from_nonbonded_force nonbonded_force switch_width)%result.

End Class.
End UnshiftedReactionFieldForce.

Module SwitchedReactionFieldForce.
Section Class.

Variable ONE_4PI_EPS0 : Q.

(** The local variables [k_rf] and [c_rf] of [__init__]. *)
Definition k_rf (cutoff_distance : Quantity 1) (reaction_field_dielectric : Q)
  : result (Quantity (-3)) :=
  (p <- pow cutoff_distance (-3) ;;
   div_scalar (mul_scalar p (reaction_field_dielectric - 1))
              (2 * reaction_field_dielectric + 1))%result.

Definition c_rf (cutoff_distance : Quantity 1) (reaction_field_dielectric : Q)
  : result (Quantity (-1)) :=
  (p <- pow cutoff_distance (-1) ;;
   div_scalar (mul_scalar p (3 * reaction_field_dielectric))
              (2 * reaction_field_dielectric + 1))%result.

Definition energy_expression (k_rf : Quantity (-3)) (c_rf : Quantity (-1)) : string :=
  ("ONE_4PI_EPS0*chargeprod*(r^(-1) + k_rf*r^2 - c_rf);"
   ++ "chargeprod = charge1*charge2;"
   ++ ("k_rf = " ++ format_f (value_in_unit_system k_rf md_unit_system) ++ ";")
   ++ ("c_rf = " ++ format_f (value_in_unit_system c_rf md_unit_system) ++ ";")
   ++ ("ONE_4PI_EPS0 = " ++ format_f ONE_4PI_EPS0 ++ ";"))%string.

Definition __init__ (cutoff_distance : Quantity 1)
    (switch_width : option (Quantity 1)) (reaction_field_dielectric : Q)
  : result CustomNonbondedForce :=
  (k_rf <- k_rf cutoff_distance reaction_field_dielectric ;;
   c_rf <- c_rf cutoff_distance reaction_field_dielectric ;;
   let self := CustomNonbondedForce_init (energy_expression k_rf c_rf) in
   let self := addPerParticleParameter self "charge" in
   let self := setNonbondedMethod self CutoffPeriodic in
   let self := setCutoffDistance self cutoff_distance in
   let self := setUseLongRangeCorrection self false in
   match switch_width with
   | Some switch_width =>
       let self := setUseSwitchingFunction self true in
       Return (setSwitchingDistance self (sub cutoff_distance switch_width))
   | None =>
       Return (setUseSwitchingFunction self false)
   end)%result.

Definition from_nonbonded_force (nonbonded_force : option NonbondedForce)
    (switch_width : option (Quantity 1)) : result CustomNonbondedForce :=
  match nonbonded_force with
  | None =>
      Raise (AttributeError "'NoneType' object has no attribute 'getCutoffDistance'")
  | Some nonbonded_force =>
      (let cutoff_distance := getCutoffDistance nonbonded_force in
       let reaction_field_dielectric := getReactionFieldDielectric nonbonded_force in
       reaction_field_force <-
         __init__ cutoff_distance switch_width reaction_field_dielectric ;;
       reaction_field_force <-
         for_each (range (getNumParticles nonbonded_force))
           (fun particle_index reaction_field_force =>
              '(charge, sigma, epsilon) <-
                getParticleParameters nonbonded_force particle_index ;;
              Return (addParticle reaction_field_force [charge]))
           reaction_field_force ;;
       reaction_field_force <-
         for_each (range (getNumExceptions nonbonded_force))
           (fun exception_index reaction_field_force =>
              '(iatom, jatom, chargeprod, sigma, epsilon) <-
                getExceptionParameters nonbonded_force exception_index ;;
              Return (addExclusion reaction_field_force iatom jatom))
           reaction_field_force ;;
       Return reaction_field_force)%result
  end.

Definition from_system (system : System) (switch_width : option (Quantity 1))
  : result CustomNonbondedForce :=
  (nonbonded_force <- find_nonbonded_force system ;;
   from_nonbonded_force nonbonded_force switch_width)%result.

End Class.
End SwitchedReactionFieldForce.

(** * Specification *)

(** The nonbonded forces of a list of forces. *)
Definition nonbonded_of (forces : list Force) : list NonbondedForce :=
  nonbonded_forces (mkSystem forces).

(** Whether a force is of the class [NonbondedForce]. *)
Definition is_nonbonded (force : Force) : bool :=
  match isinstance_NonbondedForce force with
  | Some _ => true
  | None => false
  end.

(** A quantity in the engine's units. *)
Abbreviation md q := (value_in_unit_system q md_unit_system).

(** The inputs on which the arithmetic of the constructors does not raise:
    the cutoff is not zero and neither is the divisor [2 * dielectric + 1]. *)
Definition computable (cutoff_distance : Quantity 1) (reaction_field_dielectric : Q)
  : Prop :=
  ~ _value cutoff_distance == 0 /\ ~ 2 * reaction_field_dielectric + 1 == 0.

(** What the constructors leave in a force built on [energy]. *)
Definition configured (energy : string) (cutoff_distance : Quantity 1)
    (switch_width : option (Quantity 1)) : CustomNonbondedForce :=
  mkCustomNonbondedForce energy ["charge"%string] CutoffPeriodic
    (md cutoff_distance) false
    (match switch_width with Some _ => true | None => false end)
    (match switch_width with
     | Some switch_width => md (sub cutoff_distance switch_width)
     | None => -1
     end)
    [] [].

(** A force configured for a cutoff and a switch width ([None]: truncated). *)
Definition configured_for (rf : CustomNonbondedForce) (cutoff_distance : Quantity 1)
    (switch_width : option (Quantity 1)) : Prop :=
  nonbondedMethod rf = CutoffPeriodic
  /\ cutoffDistance rf = md cutoff_distance
  /\ useLongRangeCorrection rf = false
  /\ match switch_width with
     | Some switch_width =>
         useSwitchingFunction rf = true
         /\ switchingDistance rf == md cutoff_distance - md switch_width
     | None => useSwitchingFunction rf = false
     end.

Definition with_particles (rf : CustomNonbondedForce) (ps : list (list Q))
  : CustomNonbondedForce :=
  mkCustomNonbondedForce
    (energyFunction rf) (perParticleParameters rf)
    (nonbondedMethod rf) (cutoffDistance rf) (useLongRangeCorrection rf)
    (useSwitchingFunction rf) (switchingDistance rf)
    ps (exclusions rf).

Definition with_exclusions (rf : CustomNonbondedForce) (xs : list (nat * nat))
  : CustomNonbondedForce :=
  mkCustomNonbondedForce
    (energyFunction rf) (perParticleParameters rf)
    (nonbondedMethod rf) (cutoffDistance rf) (useLongRangeCorrection rf)
    (useSwitchingFunction rf) (switchingDistance rf)
    (particles rf) xs.

(** The parameters a particle is copied with, and the pair an exception is
    copied as. *)
Definition charge_of (p : ParticleInfo) : list Q := [p_charge p].
Definition pair_of (e : ExceptionInfo) : nat * nat := (e_particle1 e, e_particle2 e).

(** A reaction-field force that copies the particles and the exceptions of a
    nonbonded force. *)
Definition copies (rf : CustomNonbondedForce) (nb : NonbondedForce) : Prop :=
  List.length (particles rf) = getNumParticles nb
  /\ particles rf = map charge_of (nb_particles nb)
  /\ List.length (exclusions rf) = getNumExceptions nb
  /\ exclusions rf = map pair_of (nb_exceptions nb).

(** ** Examples *)

Definition example_ONE_4PI_EPS0 : Q := 138935456 # 1000000.

(** Three particles of charges 1.0, -1.0 and 0.5, one exception (0, 1), a
    cutoff of 1.2 nm and a dielectric of 80. *)
Definition example_nonbonded_force : NonbondedForce :=
  mkNonbondedForce (12 # 10) 80
    [mkParticle 1 (3 # 10) (1 # 2); mkParticle (-1) (3 # 10) (1 # 2);
     mkParticle (1 # 2) (1 # 4) (1 # 5)]
    [mkException 0 1 (-1 # 2) (3 # 10) (1 # 2)].

Definition example_other_nonbonded_force : NonbondedForce :=
  mkNonbondedForce 1 (783 # 10) [mkParticle 0 1 0] [].

Definition example_system_none : System :=
  mkSystem [F_Other "HarmonicBondForce"; F_Other "CMMotionRemover"].

Definition example_system_one : System :=
  mkSystem [F_Other "HarmonicBondForce"; F_NonbondedForce example_nonbonded_force;
            F_Other "CMMotionRemover"].

Definition example_system_two : System :=
  mkSystem [F_NonbondedForce example_nonbonded_force; F_Other "HarmonicBondForce";
            F_NonbondedForce example_other_nonbonded_force].

(** ** Further notions *)

(** The inputs on which the arithmetic of the constructors raises. *)
Definition degenerate (cutoff_distance : Quantity 1) (reaction_field_dielectric : Q)
  : Prop :=
  _value cutoff_distance == 0 \/ 2 * reaction_field_dielectric + 1 == 0.

(** Two forces that differ at most in their energy expression. *)
Definition same_configuration (rf rf' : CustomNonbondedForce) : Prop :=
  perParticleParameters rf = perParticleParameters rf'
  /\ nonbondedMethod rf = nonbondedMethod rf'
  /\ cutoffDistance rf = cutoffDistance rf'
  /\ useLongRangeCorrection rf = useLongRangeCorrection rf'
  /\ useSwitchingFunction rf = useSwitchingFunction rf'
  /\ switchingDistance rf = switchingDistance rf'
  /\ particles rf = particles rf'
  /\ exclusions rf = exclusions rf'.

(** A magnitude of the cutoff from which the powers [cutoff ** (-3)] and
    [cutoff ** (-1)] stay within the range of a double: below it, [pow] on
    doubles can overflow, which the exact arithmetic of this model does not
    have. *)
Definition safe_magnitude : Q := 1 # 10 ^ 100.

(** A direct construction and a copy that end alike: both raise the same
    exception, or both return forces with the same energy expression. *)
Definition agree_on_expression (direct copied : result CustomNonbondedForce) : Prop :=
  (exists e, direct = Raise e /\ copied = Raise e)
  \/ (exists rf rf',
         direct = Return rf /\ copied = Return rf'
         /\ energyFunction rf' = energyFunction rf).

(** What the energy expressions denote at a distance [r], for the product
    [chargeprod] of the two charges: the expression of the unshifted class,
    [ONE_4PI_EPS0*chargeprod*(r^(-1) + k_rf*r^2)], and that of the switched
    class, [ONE_4PI_EPS0*chargeprod*(r^(-1) + k_rf*r^2 - c_rf)]. *)
Definition unshifted_energy (ONE_4PI_EPS0 chargeprod k_rf r : Q) : Q :=
  ONE_4PI_EPS0 * chargeprod * (r ^ (-1) + k_rf * r ^ 2).

Definition switched_energy (ONE_4PI_EPS0 chargeprod k_rf c_rf r : Q) : Q :=
  ONE_4PI_EPS0 * chargeprod * (r ^ (-1) + k_rf * r ^ 2 - c_rf).

(** Exceptions, and exclusions, between particles that exist. *)
Definition valid_exceptions (nb : NonbondedForce) : Prop :=
  Forall (fun e => (e_particle1 e < getNumParticles nb)%nat
                   /\ (e_particle2 e < getNumParticles nb)%nat)
         (nb_exceptions nb).

Definition valid_exclusions (rf : CustomNonbondedForce) : Prop :=
  Forall (fun x => (fst x < List.length (particles rf))%nat
                   /\ (snd x < List.length (particles rf))%nat)
         (exclusions rf).

(** Every particle has one value for each per-particle parameter. *)
Definition valid_particles (rf : CustomNonbondedForce) : Prop :=
  Forall (fun parameters =>
            List.length parameters = List.length (perParticleParameters rf))
         (particles rf).

(** A nonbonded force whose dielectric makes [2 * dielectric + 1] zero. *)
Definition example_degenerate_force : NonbondedForce :=
  mkNonbondedForce 1 (- (1 # 2)) [mkParticle 1 1 1] [].

(** * Properties *)

(** ** The locator and the generator *)

Lemma nonbonded_of_cons force rest :
  nonbonded_of (force :: rest) =
  match isinstance_NonbondedForce force with
  | Some f => f :: nonbonded_of rest
  | None => nonbonded_of rest
  end.
Proof.
  unfold nonbonded_of, nonbonded_forces. simpl.
  destruct (isinstance_NonbondedForce force); reflexivity.
Qed.

Arguments nonbonded_of : simpl never.

(** Once a nonbonded force has been seen, the loop returns it when no other
    follows and raises otherwise. *)
Lemma find_nonbonded_force_loop_seen forces g :
  find_nonbonded_force_loop forces (Some g) =
  match nonbonded_of forces with
  | [] => Return (Some g)
  | _ :: _ => Raise (ValueError "The System has multiple NonbondedForces")
  end.
Proof.
  induction forces as [| force rest IH]; [reflexivity |].
  rewrite nonbonded_of_cons. simpl.
  destruct (isinstance_NonbondedForce force); [reflexivity | exact IH].
Qed.

Lemma find_nonbonded_force_loop_fresh forces :
  find_nonbonded_force_loop forces None =
  match nonbonded_of forces with
  | [] => Return None
  | [f] => Return (Some f)
  | _ :: _ :: _ => Raise (ValueError "The System has multiple NonbondedForces")
  end.
Proof.
  induction forces as [| force rest IH]; [reflexivity |].
  rewrite nonbonded_of_cons. simpl.
  destruct (isinstance_NonbondedForce force) as [f |]; [| exact IH].
  rewrite find_nonbonded_force_loop_seen.
  destruct (nonbonded_of rest); reflexivity.
Qed.

Lemma find_nonbonded_force_eq system :
  find_nonbonded_force system =
  match nonbonded_forces system with
  | [] => Return None
  | [f] => Return (Some f)
  | _ :: _ :: _ => Raise (ValueError "The System has multiple NonbondedForces")
  end.
Proof.
  destruct system as [forces]. unfold find_nonbonded_force. simpl.
  apply find_nonbonded_force_loop_fresh.
Qed.

(** Resuming the loop yields the first nonbonded force still to visit. *)
Lemma resume_nil forces :
  nonbonded_of forces = [] -> resume forces = (None, Finished).
Proof.
  induction forces as [| force rest IH]; [reflexivity |].
  rewrite nonbonded_of_cons. simpl.
  destruct (isinstance_NonbondedForce force); [discriminate | exact IH].
Qed.

Lemma resume_cons forces f fs :
  nonbonded_of forces = f :: fs ->
  exists rest, resume forces = (Some f, Suspended rest) /\ nonbonded_of rest = fs.
Proof.
  induction forces as [| force rest IH]; [discriminate |].
  rewrite nonbonded_of_cons. simpl.
  destruct (isinstance_NonbondedForce force) as [f' |]; [| exact IH].
  intros H. injection H as -> <-.
  exists rest. split; reflexivity.
Qed.

Lemma collect_suspended fuel rest :
  (List.length (nonbonded_of rest) < fuel)%nat ->
  collect fuel (Suspended rest) = (nonbonded_of rest, true).
Proof.
  revert rest. induction fuel as [| fuel IH]; intros rest Hfuel; [lia |].
  destruct (nonbonded_of rest) as [| f fs] eqn:Hnb.
  - simpl. rewrite (resume_nil _ Hnb). reflexivity.
  - destruct (resume_cons _ _ _ Hnb) as (rest' & Hres & Hrest').
    simpl. rewrite Hres. simpl in Hfuel.
    rewrite IH by (rewrite Hrest'; lia).
    rewrite Hrest'. reflexivity.
Qed.

Lemma collect_created fuel system :
  (List.length (nonbonded_forces system) < fuel)%nat ->
  collect fuel (iterate_nonbonded_forces system) = (nonbonded_forces system, true).
Proof.
  destruct system as [forces]. intros Hfuel.
  destruct fuel as [| fuel]; [simpl in Hfuel; lia |].
  exact (collect_suspended (S fuel) forces Hfuel).
Qed.

Lemma nonbonded_forces_filter system :
  map F_NonbondedForce (nonbonded_forces system) = filter is_nonbonded (getForces system).
Proof.
  destruct system as [forces]. change (nonbonded_forces (mkSystem forces)) with (nonbonded_of forces).
  cbn [getForces]. induction forces as [| force rest IH]; [reflexivity |].
  rewrite nonbonded_of_cons. unfold is_nonbonded at 1. cbn [filter].
  destruct force as [f | c | name]; cbn [isinstance_NonbondedForce map].
  - rewrite IH. reflexivity.
  - exact IH.
  - exact IH.
Qed.

(** ** Quantities *)

Lemma md_value (n : Z) (v : Q) (u : LengthUnit) :
  md (@mkQuantity n v u) == v * nanometers_per u ^ n.
Proof.
  unfold value_in_unit_system, value_in_unit. cbn [_value unit_of length_unit_of].
  assert (E : nanometers_per u / nanometers_per nanometer == nanometers_per u)
    by (cbn [nanometers_per]; field).
  rewrite E. reflexivity.
Qed.

Lemma md_length (q : Quantity 1) : md q == _value q * nanometers_per (unit_of q).
Proof. destruct q as [v u]. rewrite md_value. reflexivity. Qed.

Lemma md_sub (a b : Quantity 1) : md (sub a b) == md a - md b.
Proof.
  destruct a as [va ua], b as [vb ub].
  destruct ua, ub;
    cbv [value_in_unit_system value_in_unit sub add neg _value unit_of length_unit_of
         nanometers_per Qpower Qpower_positive pow_pos];
    field.
Qed.

Lemma md_pos (q : Quantity 1) : 0 < _value q -> 0 < md q.
Proof.
  intros H. rewrite md_length.
  apply Qmult_lt_0_compat; [exact H |].
  destruct (unit_of q); reflexivity.
Qed.

Lemma md_nonzero (q : Quantity 1) : ~ _value q == 0 -> ~ md q == 0.
Proof.
  intros H. rewrite md_length. intros E.
  apply Qmult_integral in E. destruct E as [E | E]; [contradiction |].
  destruct (unit_of q); discriminate.
Qed.

Lemma md_mul_scalar (q : Quantity 1) (a : Q) : md (mul_scalar q a) == a * md q.
Proof.
  rewrite !md_length. destruct q as [v u]. cbn [mul_scalar _value unit_of]. ring.
Qed.

Lemma float_pow_nonzero x n : ~ x == 0 -> float_pow x n = Return (x ^ n).
Proof.
  intros Hx. unfold float_pow.
  destruct (Qeq_bool x 0) eqn:E; [| reflexivity].
  apply Qeq_bool_eq in E. contradiction.
Qed.

Lemma float_pow_zero x n : x == 0 -> (n < 0)%Z -> float_pow x n = Raise ZeroDivisionError.
Proof.
  intros Hx Hn. unfold float_pow.
  apply Qeq_eq_bool in Hx. apply Z.ltb_lt in Hn. rewrite Hx, Hn. reflexivity.
Qed.

Lemma Qpower_m1 (x : Q) : x ^ (-1) == / x.
Proof. reflexivity. Qed.

(** ** Formatting *)

Lemma round_half_even_comp x y : x == y -> round_half_even x = round_half_even y.
Proof.
  intros E. unfold round_half_even.
  assert (Ef : Qfloor x = Qfloor y) by (rewrite E; reflexivity).
  assert (Ec : (x - inject_Z (Qfloor x) ?= 1 # 2) = (y - inject_Z (Qfloor y) ?= 1 # 2))
    by (rewrite Ef, E; reflexivity).
  cbv zeta. rewrite Ec, Ef. reflexivity.
Qed.

Lemma format_f_comp x y : x == y -> format_f x = format_f y.
Proof.
  intros E. unfold format_f. cbv zeta.
  assert (En : round_half_even (Qabs x * 1000000) = round_half_even (Qabs y * 1000000))
    by (apply round_half_even_comp; rewrite E; reflexivity).
  rewrite En.
  destruct (Qlt_le_dec x 0) as [Hx | Hx], (Qlt_le_dec y 0) as [Hy | Hy];
    try reflexivity; exfalso; lra.
Qed.

(** ** The reaction-field constants *)

Lemma switched_k_rf_unshifted :
  SwitchedReactionFieldForce.k_rf = UnshiftedReactionFieldForce.k_rf.
Proof. reflexivity. Qed.

Lemma k_rf_eq (c : Quantity 1) eps :
  computable c eps ->
  UnshiftedReactionFieldForce.k_rf c eps =
  Return (mkQuantity (_value c ^ (-3) * (eps - 1) * (2 * eps + 1) ^ (-1)) (unit_of c)).
Proof.
  intros [Hc He]. unfold UnshiftedReactionFieldForce.k_rf, pow, div_scalar.
  rewrite (float_pow_nonzero _ _ Hc). cbn [bind].
  rewrite (float_pow_nonzero _ _ He). reflexivity.
Qed.

Lemma c_rf_eq (c : Quantity 1) eps :
  computable c eps ->
  SwitchedReactionFieldForce.c_rf c eps =
  Return (mkQuantity (_value c ^ (-1) * (3 * eps) * (2 * eps + 1) ^ (-1)) (unit_of c)).
Proof.
  intros [Hc He]. unfold SwitchedReactionFieldForce.c_rf, pow, div_scalar.
  rewrite (float_pow_nonzero _ _ Hc). cbn [bind].
  rewrite (float_pow_nonzero _ _ He). reflexivity.
Qed.

(** In the engine's units the constants are functions of the cutoff in
    nanometres, whatever unit the cutoff was given in. *)
Lemma md_k_rf (c : Quantity 1) eps :
  md (@mkQuantity (-3) (_value c ^ (-3) * (eps - 1) * (2 * eps + 1) ^ (-1)) (unit_of c))
  == md c ^ (-3) * (eps - 1) / (2 * eps + 1).
Proof.
  rewrite md_value, md_length, Qmult_power, Qpower_m1. unfold Qdiv. ring.
Qed.

Lemma md_c_rf (c : Quantity 1) eps :
  md (@mkQuantity (-1) (_value c ^ (-1) * (3 * eps) * (2 * eps + 1) ^ (-1)) (unit_of c))
  == md c ^ (-1) * (3 * eps) / (2 * eps + 1).
Proof.
  rewrite md_value, md_length, Qmult_power, !Qpower_m1. unfold Qdiv. ring.
Qed.

Lemma k_rf_md (c : Quantity 1) eps :
  computable c eps ->
  exists k, UnshiftedReactionFieldForce.k_rf c eps = Return k
            /\ _value k == _value c ^ (-3) * (eps - 1) / (2 * eps + 1)
            /\ unit_of k = unit_of c
            /\ md k == md c ^ (-3) * (eps - 1) / (2 * eps + 1).
Proof.
  intros H. eexists. split; [apply (k_rf_eq _ _ H) |]. split; [| split].
  - cbn [_value]. rewrite Qpower_m1. reflexivity.
  - reflexivity.
  - apply md_k_rf.
Qed.

Lemma c_rf_md (c : Quantity 1) eps :
  computable c eps ->
  exists k, SwitchedReactionFieldForce.c_rf c eps = Return k
            /\ _value k == _value c ^ (-1) * (3 * eps) / (2 * eps + 1)
            /\ unit_of k = unit_of c
            /\ md k == md c ^ (-1) * (3 * eps) / (2 * eps + 1).
Proof.
  intros H. eexists. split; [apply (c_rf_eq _ _ H) |]. split; [| split].
  - cbn [_value]. rewrite (Qpower_m1 (2 * eps + 1)). reflexivity.
  - reflexivity.
  - apply md_c_rf.
Qed.

Lemma computable_pos (c : Quantity 1) eps :
  0 < _value c -> 0 < eps -> computable c eps.
Proof. intros Hc He. split; intros E; lra. Qed.

Lemma computable_scaled (c : Quantity 1) a eps :
  0 < _value c -> 0 < a -> 0 < eps -> computable (mul_scalar c a) eps.
Proof.
  intros Hc Ha He. apply computable_pos; [| exact He].
  cbn [mul_scalar _value]. apply Qmult_lt_0_compat; assumption.
Qed.

(** ** Sign, scaling and limits of the formulas *)

Lemma k_formula_sign d eps :
  0 < d -> 0 < 2 * eps + 1 ->
  (0 < d ^ (-3) * (eps - 1) / (2 * eps + 1) <-> 1 < eps).
Proof.
  intros Hd He.
  pose proof (Qpower_0_lt d (-3) Hd) as HP.
  pose proof (Qinv_lt_0_compat _ He) as HI.
  unfold Qdiv. set (P := d ^ (-3)) in *. set (I := / (2 * eps + 1)) in *.
  assert (HPI : 0 < P * I) by (apply Qmult_lt_0_compat; assumption).
  assert (E : P * (eps - 1) * I == (P * I) * (eps - 1)) by ring.
  rewrite E. clearbody P I. clear HP HI He E.
  split; intros H; nra.
Qed.

Lemma c_formula_pos d eps :
  0 < d -> 0 < eps -> 0 < d ^ (-1) * (3 * eps) / (2 * eps + 1).
Proof.
  intros Hd He.
  pose proof (Qpower_0_lt d (-1) Hd) as HP.
  assert (HD : 0 < 2 * eps + 1) by lra.
  pose proof (Qinv_lt_0_compat _ HD) as HI.
  unfold Qdiv.
  apply Qmult_lt_0_compat; [apply Qmult_lt_0_compat |]; [exact HP | lra | exact HI].
Qed.

Lemma formula_scaling (n : Z) a d x y :
  (a * d) ^ n * x / y == a ^ n * (d ^ n * x / y).
Proof. rewrite Qmult_power. unfold Qdiv. ring. Qed.

(** [P * x / (2 eps + 1)] is within [tol] of [P * l] once [eps] is beyond
    [r * P / tol], when [x - l * (2 eps + 1)] is the constant [- r]. *)
Lemma formula_limit P x l r eps tol :
  0 < P -> 0 < tol -> 0 <= r -> r * P / tol < eps ->
  x - l * (2 * eps + 1) == - r ->
  Qabs (P * x / (2 * eps + 1) - P * l) < tol.
Proof.
  intros HP Htol Hr Heps Hx.
  assert (Hnum : 0 <= r * P) by (apply Qmult_le_0_compat; [exact Hr | lra]).
  assert (Heps0 : 0 < eps).
  { apply Qle_lt_trans with (r * P / tol); [| exact Heps].
    apply Qle_shift_div_l; [exact Htol | lra]. }
  assert (HD : 0 < 2 * eps + 1) by lra.
  assert (Hmul : r * P < eps * tol).
  { apply Qmult_lt_compat_r with (z := tol) in Heps; [| exact Htol].
    assert (E : r * P / tol * tol == r * P) by (field; lra).
    rewrite E in Heps. exact Heps. }
  assert (E : P * x / (2 * eps + 1) - P * l == - (r * P / (2 * eps + 1))).
  { assert (Ex : x == l * (2 * eps + 1) - r) by lra.
    rewrite Ex. field. lra. }
  rewrite E, Qabs_opp, Qabs_pos.
  - apply Qlt_shift_div_r; [exact HD |]. nra.
  - apply Qle_shift_div_l; [exact HD | lra].
Qed.

Lemma limit_threshold_pos P tol : 0 < P -> 0 < tol -> 0 <= (3 # 2) * P / tol.
Proof.
  intros HP Htol. apply Qle_shift_div_l; [exact Htol | lra].
Qed.

(** ** The constructors *)

Lemma unshifted_init_eq K (c : Quantity 1) w eps :
  computable c eps ->
  UnshiftedReactionFieldForce.__init__ K c w eps =
  Return (configured
            (UnshiftedReactionFieldForce.energy_expression K
               (mkQuantity (_value c ^ (-3) * (eps - 1) * (2 * eps + 1) ^ (-1))
                           (unit_of c)))
            c w).
Proof.
  intros H. unfold UnshiftedReactionFieldForce.__init__.
  rewrite (k_rf_eq _ _ H). cbn [bind]. destruct w; reflexivity.
Qed.

Lemma switched_init_eq K (c : Quantity 1) w eps :
  computable c eps ->
  SwitchedReactionFieldForce.__init__ K c w eps =
  Return (configured
            (SwitchedReactionFieldForce.energy_expression K
               (mkQuantity (_value c ^ (-3) * (eps - 1) * (2 * eps + 1) ^ (-1))
                           (unit_of c))
               (mkQuantity (_value c ^ (-1) * (3 * eps) * (2 * eps + 1) ^ (-1))
                           (unit_of c)))
            c w).
Proof.
  intros H. unfold SwitchedReactionFieldForce.__init__.
  rewrite switched_k_rf_unshifted, (k_rf_eq _ _ H), (c_rf_eq _ _ H).
  cbn [bind]. destruct w; reflexivity.
Qed.

Lemma configured_configured_for energy c w :
  configured_for (configured energy c w) c w.
Proof.
  unfold configured_for, configured. cbn.
  repeat split; destruct w; try reflexivity.
  split; [reflexivity | apply md_sub].
Qed.

(** A zero cutoff makes the power raise, in both classes. *)
Lemma init_zero_cutoff K (c : Quantity 1) w eps :
  _value c == 0 ->
  UnshiftedReactionFieldForce.__init__ K c w eps = Raise ZeroDivisionError
  /\ SwitchedReactionFieldForce.__init__ K c w eps = Raise ZeroDivisionError.
Proof.
  intros Hc.
  unfold UnshiftedReactionFieldForce.__init__, SwitchedReactionFieldForce.__init__.
  rewrite switched_k_rf_unshifted.
  unfold UnshiftedReactionFieldForce.k_rf, pow.
  rewrite (float_pow_zero _ (-3) Hc) by reflexivity. split; reflexivity.
Qed.

(** ** The copy loops *)

Lemma particle_loop nb (done todo : list ParticleInfo) rf :
  nb_particles nb = done ++ todo ->
  for_each (seq (List.length done) (List.length todo))
    (fun particle_index reaction_field_force =>
       ('(charge, sigma, epsilon) <- getParticleParameters nb particle_index ;;
        Return (addParticle reaction_field_force [charge]))%result) rf
  = Return (with_particles rf (particles rf ++ map charge_of todo)).
Proof.
  revert done rf. induction todo as [| p todo IH]; intros done rf Hnb.
  - simpl. rewrite app_nil_r. destruct rf; reflexivity.
  - cbn [List.length seq for_each].
    unfold getParticleParameters at 1. rewrite Hnb.
    rewrite nth_error_app2 by lia. rewrite Nat.sub_diag. cbn [nth_error bind].
    specialize (IH (done ++ [p]) (addParticle rf [p_charge p])).
    rewrite length_app in IH. cbn [List.length] in IH.
    rewrite Nat.add_1_r in IH. rewrite IH by (rewrite <- app_assoc; exact Hnb).
    unfold with_particles, addParticle. cbn. rewrite <- app_assoc. reflexivity.
Qed.

Lemma exception_loop nb (done todo : list ExceptionInfo) rf :
  nb_exceptions nb = done ++ todo ->
  for_each (seq (List.length done) (List.length todo))
    (fun exception_index reaction_field_force =>
       ('(iatom, jatom, chargeprod, sigma, epsilon) <-
          getExceptionParameters nb exception_index ;;
        Return (addExclusion reaction_field_force iatom jatom))%result) rf
  = Return (with_exclusions rf (exclusions rf ++ map pair_of todo)).
Proof.
  revert done rf. induction todo as [| e todo IH]; intros done rf Hnb.
  - simpl. rewrite app_nil_r. destruct rf; reflexivity.
  - cbn [List.length seq for_each].
    unfold getExceptionParameters at 1. rewrite Hnb.
    rewrite nth_error_app2 by lia. rewrite Nat.sub_diag. cbn [nth_error bind].
    specialize (IH (done ++ [e]) (addExclusion rf (e_particle1 e) (e_particle2 e))).
    rewrite length_app in IH. cbn [List.length] in IH.
    rewrite Nat.add_1_r in IH. rewrite IH by (rewrite <- app_assoc; exact Hnb).
    unfold with_exclusions, addExclusion. cbn. rewrite <- app_assoc. reflexivity.
Qed.

(** Both copy constructors run the constructor of their class and then the
    two loops. *)
Ltac run_copy_loops nb :=
  cbv zeta;
  match goal with
  | |- bind ?init _ = _ => destruct init as [rf0 | e]; [| reflexivity]
  end;
  cbn [bind]; unfold range, getNumParticles, getNumExceptions;
  rewrite (particle_loop nb [] (nb_particles nb)) by reflexivity; cbn [bind];
  rewrite (exception_loop nb [] (nb_exceptions nb)) by reflexivity; cbn [bind];
  reflexivity.

Lemma unshifted_from_nonbonded_force_eq K nb w :
  UnshiftedReactionFieldForce.from_nonbonded_force K (Some nb) w =
  bind (UnshiftedReactionFieldForce.__init__ K (getCutoffDistance nb) w
          (getReactionFieldDielectric nb))
       (fun rf0 =>
          Return (with_exclusions
                    (with_particles rf0 (particles rf0 ++ map charge_of (nb_particles nb)))
                    (exclusions rf0 ++ map pair_of (nb_exceptions nb)))).
Proof.
  unfold UnshiftedReactionFieldForce.from_nonbonded_force. run_copy_loops nb.
Qed.

Lemma switched_from_nonbonded_force_eq K nb w :
  SwitchedReactionFieldForce.from_nonbonded_force K (Some nb) w =
  bind (SwitchedReactionFieldForce.__init__ K (getCutoffDistance nb) w
          (getReactionFieldDielectric nb))
       (fun rf0 =>
          Return (with_exclusions
                    (with_particles rf0 (particles rf0 ++ map charge_of (nb_particles nb)))
                    (exclusions rf0 ++ map pair_of (nb_exceptions nb)))).
Proof.
  unfold SwitchedReactionFieldForce.from_nonbonded_force. run_copy_loops nb.
Qed.

Lemma computable_source nb :
  ~ nb_cutoffDistance nb == 0 -> ~ 2 * nb_rfDielectric nb + 1 == 0 ->
  computable (getCutoffDistance nb) (getReactionFieldDielectric nb).
Proof. intros Hc He. split; assumption. Qed.

Lemma copies_of_configured energy c w nb :
  copies (with_exclusions
            (with_particles (configured energy c w)
               (particles (configured energy c w) ++ map charge_of (nb_particles nb)))
            (exclusions (configured energy c w) ++ map pair_of (nb_exceptions nb)))
         nb.
Proof.
  unfold copies, getNumParticles, getNumExceptions. cbn.
  rewrite !length_map. repeat split; reflexivity.
Qed.

Lemma append_assoc (a b c : string) :
  ((a ++ b) ++ c)%string = (a ++ (b ++ c))%string.
Proof.
  induction a as [| ch a IH]; [reflexivity |].
  cbn [append]. rewrite IH. reflexivity.
Qed.

Lemma unshifted_energy_expression_eq K (k : Quantity (-3)) :
  UnshiftedReactionFieldForce.energy_expression K k =
  ("ONE_4PI_EPS0*chargeprod*(r^(-1) + k_rf*r^2);chargeprod = charge1*charge2;k_rf = "
   ++ format_f (md k) ++ ";ONE_4PI_EPS0 = " ++ format_f K ++ ";")%string.
Proof.
  unfold UnshiftedReactionFieldForce.energy_expression.
  generalize (format_f (md k)) (format_f K). intros a b.
  cbn [append]. rewrite append_assoc. reflexivity.
Qed.

Lemma switched_energy_expression_eq K (k : Quantity (-3)) (c : Quantity (-1)) :
  SwitchedReactionFieldForce.energy_expression K k c =
  ("ONE_4PI_EPS0*chargeprod*(r^(-1) + k_rf*r^2 - c_rf);chargeprod = charge1*charge2;k_rf = "
   ++ format_f (md k) ++ ";c_rf = " ++ format_f (md c)
   ++ ";ONE_4PI_EPS0 = " ++ format_f K ++ ";")%string.
Proof.
  unfold SwitchedReactionFieldForce.energy_expression.
  generalize (format_f (md k)) (format_f (md c)) (format_f K). intros a b d.
  cbn [append]. rewrite !append_assoc. reflexivity.
Qed.

(** ** The claims *)

(** C1. [find_nonbonded_force] returns the only nonbonded force of a system
    that holds exactly one; it raises, for a system that holds two or more,
    the [ValueError] whose message is that the system has multiple
    nonbonded forces (the error the specification names MultipleForcesError);
    and it returns [None], raising nothing, for a system that holds none. *)
Theorem find_nonbonded_force_cases (system : System) :
  (forall f, nonbonded_forces system = [f] ->
             find_nonbonded_force system = Return (Some f))
  /\ ((2 <= List.length (nonbonded_forces system))%nat ->
      find_nonbonded_force system =
      Raise (ValueError "The System has multiple NonbondedForces"))
  /\ (nonbonded_forces system = [] -> find_nonbonded_force system = Return None).
Proof.
  rewrite find_nonbonded_force_eq.
  destruct (nonbonded_forces system) as [| f [| g rest]]; repeat split.
  - discriminate.
  - cbn [List.length]. lia.
  - intros f' H. injection H as ->. reflexivity.
  - cbn [List.length]. lia.
  - discriminate.
  - discriminate.
  - discriminate.
Qed.

Lemma find_nonbonded_force_cases_witness :
  find_nonbonded_force example_system_one = Return (Some example_nonbonded_force)
  /\ find_nonbonded_force example_system_two =
     Raise (ValueError "The System has multiple NonbondedForces")
  /\ find_nonbonded_force example_system_none = Return None.
Proof.
  split; [| split].
  - apply (proj1 (find_nonbonded_force_cases example_system_one)). reflexivity.
  - apply (proj1 (proj2 (find_nonbonded_force_cases example_system_two))).
    apply le_n.
  - apply (proj2 (proj2 (find_nonbonded_force_cases example_system_none))).
    reflexivity.
Defined.

(** C7. Drained by enough calls of [next], the generator of
    [iterate_nonbonded_forces] yields the nonbonded forces of the system,
    all of them and in the order in which the system lists them, and then
    stops; for a system without a nonbonded force the first call already
    stops.  [next] has no other outcome than a yield or the stop, and no
    step returns a system: the system is only read. *)
Theorem iterate_nonbonded_forces_yields (system : System) (fuel : nat) :
  (List.length (nonbonded_forces system) < fuel)%nat ->
  collect fuel (iterate_nonbonded_forces system) = (nonbonded_forces system, true)
  /\ map F_NonbondedForce (nonbonded_forces system)
     = filter is_nonbonded (getForces system)
  /\ (nonbonded_forces system = [] ->
      next (iterate_nonbonded_forces system) = (None, Finished)).
Proof.
  intros Hfuel. split; [| split].
  - apply collect_created. exact Hfuel.
  - apply nonbonded_forces_filter.
  - destruct system as [forces]. intros Hnone. apply resume_nil. exact Hnone.
Qed.

Lemma iterate_nonbonded_forces_yields_witness :
  (List.length (nonbonded_forces example_system_two) < 3)%nat
  /\ collect 3 (iterate_nonbonded_forces example_system_two)
     = ([example_nonbonded_force; example_other_nonbonded_force], true).
Proof.
  split.
  - apply le_n.
  - apply (proj1 (iterate_nonbonded_forces_yields example_system_two 3 (le_n 3))).
Defined.

(** C4. [from_system] hands what [find_nonbonded_force] returns to
    [from_nonbonded_force], with the switch width it was given: for a system
    with exactly one nonbonded force it is [from_nonbonded_force] of that
    force; for a system with two or more it raises the error of the locator;
    and for a system with none it raises the [AttributeError] of calling a
    method on [None]. *)
Theorem from_system_cases (ONE_4PI_EPS0 : Q) (system : System)
    (switch_width : option (Quantity 1)) :
  (forall f, nonbonded_forces system = [f] ->
     UnshiftedReactionFieldForce.from_system ONE_4PI_EPS0 system switch_width
     = UnshiftedReactionFieldForce.from_nonbonded_force ONE_4PI_EPS0 (Some f) switch_width
     /\ SwitchedReactionFieldForce.from_system ONE_4PI_EPS0 system switch_width
        = SwitchedReactionFieldForce.from_nonbonded_force ONE_4PI_EPS0 (Some f) switch_width)
  /\ ((2 <= List.length (nonbonded_forces system))%nat ->
      UnshiftedReactionFieldForce.from_system ONE_4PI_EPS0 system switch_width
      = Raise (ValueError "The System has multiple NonbondedForces")
      /\ SwitchedReactionFieldForce.from_system ONE_4PI_EPS0 system switch_width
         = Raise (ValueError "The System has multiple NonbondedForces"))
  /\ (nonbonded_forces system = [] ->
      UnshiftedReactionFieldForce.from_system ONE_4PI_EPS0 system switch_width
      = Raise (AttributeError "'NoneType' object has no attribute 'getCutoffDistance'")
      /\ SwitchedReactionFieldForce.from_system ONE_4PI_EPS0 system switch_width
         = Raise (AttributeError "'NoneType' object has no attribute 'getCutoffDistance'")).
Proof.
  unfold UnshiftedReactionFieldForce.from_system, SwitchedReactionFieldForce.from_system.
  rewrite find_nonbonded_force_eq.
  destruct (nonbonded_forces system) as [| f [| g rest]]; split; [| split | | split | | split].
  - discriminate.
  - cbn [List.length]. lia.
  - intros _. split; reflexivity.
  - intros f' H. injection H as ->. split; reflexivity.
  - cbn [List.length]. lia.
  - discriminate.
  - discriminate.
  - intros _. split; reflexivity.
  - discriminate.
Qed.

Lemma from_system_cases_witness :
  SwitchedReactionFieldForce.from_system example_ONE_4PI_EPS0 example_system_one
    default_switch_width
  = SwitchedReactionFieldForce.from_nonbonded_force example_ONE_4PI_EPS0
      (Some example_nonbonded_force) default_switch_width
  /\ UnshiftedReactionFieldForce.from_system example_ONE_4PI_EPS0 example_system_two
       default_switch_width
     = Raise (ValueError "The System has multiple NonbondedForces")
  /\ UnshiftedReactionFieldForce.from_system example_ONE_4PI_EPS0 example_system_none
       default_switch_width
     = Raise (AttributeError "'NoneType' object has no attribute 'getCutoffDistance'").
Proof.
  split; [| split].
  - apply (proj1 (from_system_cases example_ONE_4PI_EPS0 example_system_one
                    default_switch_width)).
    reflexivity.
  - apply (proj1 (proj2 (from_system_cases example_ONE_4PI_EPS0 example_system_two
                           default_switch_width))).
    apply le_n.
  - apply (proj2 (proj2 (from_system_cases example_ONE_4PI_EPS0 example_system_none
                           default_switch_width))).
    reflexivity.
Defined.

(** C3. From a nonbonded force with N particles and M exceptions (whose
    cutoff and dielectric the constructor can compute with),
    [from_nonbonded_force] of either class returns a force with N particles,
    each with the charge of the source particle as its only parameter, and
    with M exclusions, each the pair of particles of the source exception,
    in the order of the source. *)
Theorem from_nonbonded_force_copies (ONE_4PI_EPS0 : Q) (nonbonded_force : NonbondedForce)
    (switch_width : option (Quantity 1)) :
  ~ nb_cutoffDistance nonbonded_force == 0 ->
  ~ 2 * nb_rfDielectric nonbonded_force + 1 == 0 ->
  (exists rf,
      UnshiftedReactionFieldForce.from_nonbonded_force ONE_4PI_EPS0
        (Some nonbonded_force) switch_width = Return rf
      /\ copies rf nonbonded_force)
  /\ (exists rf,
         SwitchedReactionFieldForce.from_nonbonded_force ONE_4PI_EPS0
           (Some nonbonded_force) switch_width = Return rf
         /\ copies rf nonbonded_force).
Proof.
  intros Hc He. pose proof (computable_source _ Hc He) as H. split.
  - rewrite unshifted_from_nonbonded_force_eq, (unshifted_init_eq _ _ _ _ H).
    cbn [bind]. eexists. split; [reflexivity | apply copies_of_configured].
  - rewrite switched_from_nonbonded_force_eq, (switched_init_eq _ _ _ _ H).
    cbn [bind]. eexists. split; [reflexivity | apply copies_of_configured].
Qed.

Lemma from_nonbonded_force_copies_witness :
  exists rf,
    SwitchedReactionFieldForce.from_nonbonded_force example_ONE_4PI_EPS0
      (Some example_nonbonded_force) default_switch_width = Return rf
    /\ particles rf = [[1]; [-1]; [1 # 2]]
    /\ exclusions rf = [(0%nat, 1%nat)].
Proof.
  destruct (from_nonbonded_force_copies example_ONE_4PI_EPS0 example_nonbonded_force
              default_switch_width) as [_ (rf & Hrf & _ & Hp & _ & Hx)].
  - discriminate.
  - discriminate.
  - exists rf. split; [exact Hrf |]. split; [exact Hp | exact Hx].
Defined.

(** C5. On inputs it can compute with, the constructor of either class
    returns a force whose nonbonded method is the periodic cutoff, whose
    cutoff distance is the given cutoff, and whose long-range correction is
    off; with a switch width the switching function is on and the switching
    distance is the cutoff minus the switch width, and with [None] the
    switching function is off. *)
Theorem init_configures (ONE_4PI_EPS0 : Q) (cutoff_distance : Quantity 1)
    (switch_width : option (Quantity 1)) (reaction_field_dielectric : Q) :
  computable cutoff_distance reaction_field_dielectric ->
  (exists rf,
      UnshiftedReactionFieldForce.__init__ ONE_4PI_EPS0 cutoff_distance switch_width
        reaction_field_dielectric = Return rf
      /\ configured_for rf cutoff_distance switch_width)
  /\ (exists rf,
         SwitchedReactionFieldForce.__init__ ONE_4PI_EPS0 cutoff_distance switch_width
           reaction_field_dielectric = Return rf
         /\ configured_for rf cutoff_distance switch_width).
Proof.
  intros H. split.
  - rewrite (unshifted_init_eq _ _ _ _ H).
    eexists. split; [reflexivity | apply configured_configured_for].
  - rewrite (switched_init_eq _ _ _ _ H).
    eexists. split; [reflexivity | apply configured_configured_for].
Qed.

Lemma init_configures_witness :
  computable default_cutoff_distance default_reaction_field_dielectric
  /\ (exists rf,
         UnshiftedReactionFieldForce.__init__ example_ONE_4PI_EPS0
           default_cutoff_distance default_switch_width
           default_reaction_field_dielectric = Return rf
         /\ configured_for rf default_cutoff_distance default_switch_width)
  /\ (exists rf,
         SwitchedReactionFieldForce.__init__ example_ONE_4PI_EPS0
           default_cutoff_distance None
           default_reaction_field_dielectric = Return rf
         /\ configured_for rf default_cutoff_distance None).
Proof.
  assert (H : computable default_cutoff_distance default_reaction_field_dielectric)
    by (split; discriminate).
  split; [exact H |]. split.
  - apply (proj1 (init_configures example_ONE_4PI_EPS0 default_cutoff_distance
                    default_switch_width default_reaction_field_dielectric H)).
  - apply (proj2 (init_configures example_ONE_4PI_EPS0 default_cutoff_distance
                    None default_reaction_field_dielectric H)).
Defined.

(** C10. The constructors do not compare the switch width with the cutoff:
    whatever the switch width, on a cutoff and a dielectric they can compute
    with they return a force with the switching function on and the switching
    distance at the cutoff minus the switch width, which is negative when the
    switch width is greater than the cutoff and greater than the cutoff when
    the switch width is negative. *)
Theorem init_accepts_any_switch_width (ONE_4PI_EPS0 : Q) (cutoff_distance : Quantity 1)
    (switch_width : Quantity 1) (reaction_field_dielectric : Q) :
  computable cutoff_distance reaction_field_dielectric ->
  forall init,
    init = UnshiftedReactionFieldForce.__init__ ONE_4PI_EPS0
    \/ init = SwitchedReactionFieldForce.__init__ ONE_4PI_EPS0 ->
    exists rf,
      init cutoff_distance (Some switch_width) reaction_field_dielectric = Return rf
      /\ useSwitchingFunction rf = true
      /\ cutoffDistance rf = md cutoff_distance
      /\ switchingDistance rf == md cutoff_distance - md switch_width
      /\ (md cutoff_distance < md switch_width -> switchingDistance rf < 0)
      /\ (md switch_width < 0 -> cutoffDistance rf < switchingDistance rf).
Proof.
  intros H init Hinit.
  assert (Hrf : exists energy,
             init cutoff_distance (Some switch_width) reaction_field_dielectric
             = Return (configured energy cutoff_distance (Some switch_width))).
  { destruct Hinit as [-> | ->]; eexists.
    - apply (unshifted_init_eq _ _ _ _ H).
    - apply (switched_init_eq _ _ _ _ H). }
  destruct Hrf as (energy & ->). eexists. split; [reflexivity |].
  unfold configured; cbn [useSwitchingFunction cutoffDistance switchingDistance].
  pose proof (md_sub cutoff_distance switch_width) as Hsub.
  repeat split.
  - exact Hsub.
  - intros Hgt. rewrite Hsub. lra.
  - intros Hneg. rewrite Hsub. lra.
Qed.

Lemma init_accepts_any_switch_width_witness :
  exists rf,
    UnshiftedReactionFieldForce.__init__ example_ONE_4PI_EPS0
      (nanometers 1) (Some (angstroms 25)) 80 = Return rf
    /\ useSwitchingFunction rf = true
    /\ switchingDistance rf < 0.
Proof.
  destruct (init_accepts_any_switch_width example_ONE_4PI_EPS0
              (nanometers 1) (angstroms 25) 80)
    with (init := UnshiftedReactionFieldForce.__init__ example_ONE_4PI_EPS0)
    as (rf & Hrf & Hon & _ & _ & Hneg & _).
  - split; discriminate.
  - left. reflexivity.
  - exists rf. split; [exact Hrf |]. split; [exact Hon |].
    apply Hneg. reflexivity.
Defined.

(** C2. On inputs they can compute with, both constructors compute
    [k_rf = cutoff^-3 * (dielectric - 1) / (2 * dielectric + 1)], in the
    unit of the cutoff to the power -3, and the switched one also
    [c_rf = cutoff^-1 * 3 * dielectric / (2 * dielectric + 1)]; the energy
    expression of the force holds, as decimal literals, their values in the
    engine's units, which are the same formulas of the cutoff in
    nanometres. *)
Theorem reaction_field_constants_embedded (ONE_4PI_EPS0 : Q)
    (cutoff_distance : Quantity 1) (switch_width : option (Quantity 1))
    (reaction_field_dielectric : Q) :
  computable cutoff_distance reaction_field_dielectric ->
  (exists k_rf rf,
      UnshiftedReactionFieldForce.k_rf cutoff_distance reaction_field_dielectric
      = Return k_rf
      /\ _value k_rf == _value cutoff_distance ^ (-3) * (reaction_field_dielectric - 1)
                        / (2 * reaction_field_dielectric + 1)
      /\ unit_of k_rf = unit_of cutoff_distance
      /\ md k_rf == md cutoff_distance ^ (-3) * (reaction_field_dielectric - 1)
                    / (2 * reaction_field_dielectric + 1)
      /\ UnshiftedReactionFieldForce.__init__ ONE_4PI_EPS0 cutoff_distance switch_width
           reaction_field_dielectric = Return rf
      /\ energyFunction rf =
         ("ONE_4PI_EPS0*chargeprod*(r^(-1) + k_rf*r^2);chargeprod = charge1*charge2;k_rf = "
          ++ format_f (md cutoff_distance ^ (-3) * (reaction_field_dielectric - 1)
                       / (2 * reaction_field_dielectric + 1))
          ++ ";ONE_4PI_EPS0 = " ++ format_f ONE_4PI_EPS0 ++ ";")%string)
  /\ (exists k_rf c_rf rf,
         SwitchedReactionFieldForce.k_rf cutoff_distance reaction_field_dielectric
         = Return k_rf
         /\ SwitchedReactionFieldForce.c_rf cutoff_distance reaction_field_dielectric
            = Return c_rf
         /\ _value k_rf == _value cutoff_distance ^ (-3) * (reaction_field_dielectric - 1)
                           / (2 * reaction_field_dielectric + 1)
         /\ _value c_rf == _value cutoff_distance ^ (-1) * (3 * reaction_field_dielectric)
                           / (2 * reaction_field_dielectric + 1)
         /\ unit_of k_rf = unit_of cutoff_distance
         /\ unit_of c_rf = unit_of cutoff_distance
         /\ md k_rf == md cutoff_distance ^ (-3) * (reaction_field_dielectric - 1)
                       / (2 * reaction_field_dielectric + 1)
         /\ md c_rf == md cutoff_distance ^ (-1) * (3 * reaction_field_dielectric)
                       / (2 * reaction_field_dielectric + 1)
         /\ SwitchedReactionFieldForce.__init__ ONE_4PI_EPS0 cutoff_distance switch_width
              reaction_field_dielectric = Return rf
         /\ energyFunction rf =
            ("ONE_4PI_EPS0*chargeprod*(r^(-1) + k_rf*r^2 - c_rf);chargeprod = charge1*charge2;k_rf = "
             ++ format_f (md cutoff_distance ^ (-3) * (reaction_field_dielectric - 1)
                          / (2 * reaction_field_dielectric + 1))
             ++ ";c_rf = "
             ++ format_f (md cutoff_distance ^ (-1) * (3 * reaction_field_dielectric)
                          / (2 * reaction_field_dielectric + 1))
             ++ ";ONE_4PI_EPS0 = " ++ format_f ONE_4PI_EPS0 ++ ";")%string).
Proof.
  intros H. split.
  - eexists. eexists.
    split; [apply (k_rf_eq _ _ H) |].
    split; [cbn [_value]; rewrite Qpower_m1; reflexivity |].
    split; [reflexivity |].
    split; [apply md_k_rf |].
    split; [apply (unshifted_init_eq _ _ _ _ H) |].
    cbn [configured energyFunction].
    rewrite unshifted_energy_expression_eq, (format_f_comp _ _ (md_k_rf _ _)).
    reflexivity.
  - eexists. eexists. eexists.
    split; [rewrite switched_k_rf_unshifted; apply (k_rf_eq _ _ H) |].
    split; [apply (c_rf_eq _ _ H) |].
    split; [cbn [_value]; rewrite Qpower_m1; reflexivity |].
    split; [cbn [_value]; rewrite (Qpower_m1 (2 * _ + 1)); reflexivity |].
    split; [reflexivity |].
    split; [reflexivity |].
    split; [apply md_k_rf |].
    split; [apply md_c_rf |].
    split; [apply (switched_init_eq _ _ _ _ H) |].
    cbn [configured energyFunction].
    rewrite switched_energy_expression_eq,
      (format_f_comp _ _ (md_k_rf _ _)), (format_f_comp _ _ (md_c_rf _ _)).
    reflexivity.
Qed.

Lemma reaction_field_constants_embedded_witness :
  exists rf,
    SwitchedReactionFieldForce.__init__ example_ONE_4PI_EPS0 default_cutoff_distance
      default_switch_width default_reaction_field_dielectric = Return rf
    /\ energyFunction rf =
       "ONE_4PI_EPS0*chargeprod*(r^(-1) + k_rf*r^2 - c_rf);chargeprod = charge1*charge2;k_rf = 0.145328;c_rf = 0.993655;ONE_4PI_EPS0 = 138.935456;"%string.
Proof.
  destruct (reaction_field_constants_embedded example_ONE_4PI_EPS0
              default_cutoff_distance default_switch_width
              default_reaction_field_dielectric)
    as [_ (k & c & rf & _ & _ & _ & _ & _ & _ & _ & _ & Hrf & He)].
  - split; discriminate.
  - exists rf. split; [exact Hrf |]. rewrite He. vm_compute. reflexivity.
Defined.

Lemma md_getCutoffDistance nb : md (getCutoffDistance nb) == nb_cutoffDistance nb.
Proof.
  unfold getCutoffDistance, nanometers. rewrite md_value.
  cbn [nanometers_per]. rewrite Qpower_1. ring.
Qed.

Lemma k_formula_zero d eps :
  eps == 1 -> d ^ (-3) * (eps - 1) / (2 * eps + 1) == 0.
Proof. intros E. rewrite E. unfold Qdiv. ring. Qed.

Lemma k_formula_negative d eps :
  0 < d -> 0 < 2 * eps + 1 -> eps < 1 ->
  d ^ (-3) * (eps - 1) / (2 * eps + 1) < 0.
Proof.
  intros Hd HD He.
  pose proof (Qpower_0_lt d (-3) Hd) as HP.
  apply Qlt_shift_div_r; [exact HD |]. rewrite Qmult_0_l.
  setoid_replace 0 with (d ^ (-3) * 0) by ring.
  apply Qmult_lt_l; [exact HP | lra].
Qed.

(** C8, as the code has it.  For a positive cutoff and a dielectric above 0,
    both classes compute the same [k_rf], of value
    [cutoff^-3 * (dielectric - 1) / (2 * dielectric + 1)] in the engine's
    units; it is positive exactly when the dielectric is above 1, zero
    exactly at the dielectric 1 and negative exactly below 1; and at the
    cutoff scaled by a positive [a] it is [a^-3] times what it is at the
    cutoff. *)
Theorem k_rf_sign_and_scaling (cutoff_distance : Quantity 1)
    (reaction_field_dielectric a : Q) :
  0 < _value cutoff_distance -> 0 < reaction_field_dielectric -> 0 < a ->
  exists k ka,
    UnshiftedReactionFieldForce.k_rf cutoff_distance reaction_field_dielectric
    = Return k
    /\ SwitchedReactionFieldForce.k_rf cutoff_distance reaction_field_dielectric
       = Return k
    /\ UnshiftedReactionFieldForce.k_rf (mul_scalar cutoff_distance a)
         reaction_field_dielectric = Return ka
    /\ SwitchedReactionFieldForce.k_rf (mul_scalar cutoff_distance a)
         reaction_field_dielectric = Return ka
    /\ md k == md cutoff_distance ^ (-3) * (reaction_field_dielectric - 1)
               / (2 * reaction_field_dielectric + 1)
    /\ (0 < md k <-> 1 < reaction_field_dielectric)
    /\ (md k == 0 <-> reaction_field_dielectric == 1)
    /\ (md k < 0 <-> reaction_field_dielectric < 1)
    /\ md ka == a ^ (-3) * md k.
Proof.
  intros Hc He Ha.
  destruct (k_rf_md _ _ (computable_pos _ _ Hc He)) as (k & Hk & _ & _ & Hkmd).
  destruct (k_rf_md _ _ (computable_scaled _ _ _ Hc Ha He)) as (ka & Hka & _ & _ & Hkamd).
  pose proof (md_pos _ Hc) as Hd.
  assert (HD : 0 < 2 * reaction_field_dielectric + 1) by lra.
  assert (Hpos : 1 < reaction_field_dielectric -> 0 < md k).
  { intros H. rewrite Hkmd. apply k_formula_sign; assumption. }
  assert (Hzero : reaction_field_dielectric == 1 -> md k == 0).
  { intros H. rewrite Hkmd. apply k_formula_zero. exact H. }
  assert (Hneg : reaction_field_dielectric < 1 -> md k < 0).
  { intros H. rewrite Hkmd. apply k_formula_negative; assumption. }
  exists k, ka.
  split; [exact Hk |]. split; [exact Hk |]. split; [exact Hka |]. split; [exact Hka |].
  split; [exact Hkmd |].
  split; [| split; [| split]].
  - split; [| exact Hpos]. intros H.
    destruct (Q_dec reaction_field_dielectric 1) as [[Hlt | Hgt] | Heq].
    + specialize (Hneg Hlt). lra.
    + exact Hgt.
    + specialize (Hzero Heq). lra.
  - split; [| exact Hzero]. intros H.
    destruct (Q_dec reaction_field_dielectric 1) as [[Hlt | Hgt] | Heq].
    + specialize (Hneg Hlt). lra.
    + specialize (Hpos Hgt). lra.
    + exact Heq.
  - split; [| exact Hneg]. intros H.
    destruct (Q_dec reaction_field_dielectric 1) as [[Hlt | Hgt] | Heq].
    + exact Hlt.
    + specialize (Hpos Hgt). lra.
    + specialize (Hzero Heq). lra.
  - rewrite Hkamd, Hkmd, md_mul_scalar. apply formula_scaling.
Qed.

Lemma k_rf_sign_and_scaling_witness :
  exists k ka,
    UnshiftedReactionFieldForce.k_rf (angstroms 12) 80 = Return k
    /\ UnshiftedReactionFieldForce.k_rf (mul_scalar (angstroms 12) 2) 80 = Return ka
    /\ 0 < md k
    /\ md ka == 2 ^ (-3) * md k.
Proof.
  destruct (k_rf_sign_and_scaling (angstroms 12) 80 2)
    as (k & ka & Hk & _ & Hka & _ & _ & Hpos & _ & _ & Hscale); try reflexivity.
  exists k, ka. split; [exact Hk |]. split; [exact Hka |].
  split; [apply Hpos; reflexivity | exact Hscale].
Defined.

(** C8 as stated fails: at a cutoff of 1 nm and a dielectric of 1/2, both
    positive, both classes compute a [k_rf] of -1/4 nm^-3, which is not
    positive. *)
Lemma k_rf_not_positive_below_one :
  0 < _value (nanometers 1) /\ 0 < 1 # 2
  /\ exists k,
       UnshiftedReactionFieldForce.k_rf (nanometers 1) (1 # 2) = Return k
       /\ SwitchedReactionFieldForce.k_rf (nanometers 1) (1 # 2) = Return k
       /\ md k == - (1 # 4)
       /\ ~ 0 < md k.
Proof.
  split; [reflexivity |]. split; [reflexivity |].
  eexists. split; [reflexivity |]. split; [reflexivity |].
  split; [reflexivity | discriminate].
Qed.

(** C9. For a positive cutoff, the [c_rf] of the switched class is positive
    for every dielectric above 0; at the cutoff scaled by a positive [a] it
    is [a^-1] times what it is at the cutoff; and as the dielectric grows,
    [c_rf] tends to [1.5 * cutoff^-1] and [k_rf] to [0.5 * cutoff^-3]:
    beyond some dielectric they stay within any given tolerance of these. *)
Theorem c_rf_positive_scaling_limits (cutoff_distance : Quantity 1) :
  0 < _value cutoff_distance ->
  (forall reaction_field_dielectric,
      0 < reaction_field_dielectric ->
      exists c,
        SwitchedReactionFieldForce.c_rf cutoff_distance reaction_field_dielectric
        = Return c
        /\ 0 < md c)
  /\ (forall reaction_field_dielectric a,
         0 < reaction_field_dielectric -> 0 < a ->
         exists c ca,
           SwitchedReactionFieldForce.c_rf cutoff_distance reaction_field_dielectric
           = Return c
           /\ SwitchedReactionFieldForce.c_rf (mul_scalar cutoff_distance a)
                reaction_field_dielectric = Return ca
           /\ md ca == a ^ (-1) * md c)
  /\ (forall tolerance,
         0 < tolerance ->
         exists bound,
           forall reaction_field_dielectric,
             bound < reaction_field_dielectric ->
             exists c k,
               SwitchedReactionFieldForce.c_rf cutoff_distance
                 reaction_field_dielectric = Return c
               /\ SwitchedReactionFieldForce.k_rf cutoff_distance
                    reaction_field_dielectric = Return k
               /\ Qabs (md c - md cutoff_distance ^ (-1) * (3 # 2)) < tolerance
               /\ Qabs (md k - md cutoff_distance ^ (-3) * (1 # 2)) < tolerance).
Proof.
  intros Hc. pose proof (md_pos _ Hc) as Hd. split; [| split].
  - intros eps He.
    destruct (c_rf_md _ _ (computable_pos _ _ Hc He)) as (c & Hcrf & _ & _ & Hcmd).
    exists c. split; [exact Hcrf |].
    rewrite Hcmd. apply c_formula_pos; assumption.
  - intros eps a He Ha.
    destruct (c_rf_md _ _ (computable_pos _ _ Hc He)) as (c & Hcrf & _ & _ & Hcmd).
    destruct (c_rf_md _ _ (computable_scaled _ _ _ Hc Ha He))
      as (ca & Hcarf & _ & _ & Hcamd).
    exists c, ca. split; [exact Hcrf |]. split; [exact Hcarf |].
    rewrite Hcamd, Hcmd, md_mul_scalar. apply formula_scaling.
  - intros tol Htol.
    pose proof (Qpower_0_lt _ (-1) Hd) as HP1.
    pose proof (Qpower_0_lt _ (-3) Hd) as HP3.
    set (P1 := md cutoff_distance ^ (-1)) in *.
    set (P3 := md cutoff_distance ^ (-3)) in *.
    exists ((3 # 2) * P1 / tol + (3 # 2) * P3 / tol). intros eps Heps.
    pose proof (limit_threshold_pos _ _ HP1 Htol) as H1.
    pose proof (limit_threshold_pos _ _ HP3 Htol) as H3.
    assert (He : 0 < eps) by lra.
    destruct (c_rf_md _ _ (computable_pos _ _ Hc He)) as (c & Hcrf & _ & _ & Hcmd).
    destruct (k_rf_md _ _ (computable_pos _ _ Hc He)) as (k & Hkrf & _ & _ & Hkmd).
    exists c, k. split; [exact Hcrf |]. split; [exact Hkrf |]. split.
    + rewrite Hcmd. fold P1.
      apply (formula_limit P1 (3 * eps) (3 # 2) (3 # 2) eps tol);
        try assumption; lra.
    + rewrite Hkmd. fold P3.
      apply (formula_limit P3 (eps - 1) (1 # 2) (3 # 2) eps tol);
        try assumption; lra.
Qed.

Lemma c_rf_positive_scaling_limits_witness :
  0 < _value (angstroms 12)
  /\ exists c,
       SwitchedReactionFieldForce.c_rf (angstroms 12) 80 = Return c /\ 0 < md c.
Proof.
  split; [reflexivity |].
  apply (proj1 (c_rf_positive_scaling_limits (angstroms 12) eq_refl) 80).
  reflexivity.
Defined.

(** * Further properties *)

(** ** When the constructors raise *)

Lemma safe_magnitude_below_12 : safe_magnitude <= Qabs (_value (angstroms 12)).
Proof. unfold Qle. vm_compute. discriminate. Defined.

Lemma safe_magnitude_below_1 :
  safe_magnitude <= Qabs (nb_cutoffDistance example_degenerate_force).
Proof. unfold Qle. vm_compute. discriminate. Defined.

Lemma degenerate_or_computable (c : Quantity 1) eps :
  degenerate c eps \/ computable c eps.
Proof.
  unfold degenerate, computable.
  destruct (Qeq_dec (_value c) 0) as [Hc | Hc]; [left; left; exact Hc |].
  destruct (Qeq_dec (2 * eps + 1) 0) as [He | He]; [left; right; exact He |].
  right. split; assumption.
Qed.

Lemma k_rf_degenerate (c : Quantity 1) eps :
  degenerate c eps ->
  UnshiftedReactionFieldForce.k_rf c eps = Raise ZeroDivisionError.
Proof.
  intros Hdeg. unfold UnshiftedReactionFieldForce.k_rf, pow, div_scalar.
  destruct (Qeq_dec (_value c) 0) as [Hc | Hc].
  - rewrite (float_pow_zero _ (-3) Hc) by reflexivity. reflexivity.
  - destruct Hdeg as [Hz | He]; [contradiction |].
    rewrite (float_pow_nonzero _ _ Hc). cbn [bind].
    rewrite (float_pow_zero _ (-1) He) by reflexivity. reflexivity.
Qed.

Lemma init_degenerate K (c : Quantity 1) w eps :
  degenerate c eps ->
  UnshiftedReactionFieldForce.__init__ K c w eps = Raise ZeroDivisionError
  /\ SwitchedReactionFieldForce.__init__ K c w eps = Raise ZeroDivisionError.
Proof.
  intros Hdeg.
  unfold UnshiftedReactionFieldForce.__init__, SwitchedReactionFieldForce.__init__.
  rewrite switched_k_rf_unshifted, (k_rf_degenerate _ _ Hdeg). split; reflexivity.
Qed.

(** X1. A zero cutoff makes the constructor of either class raise
    [ZeroDivisionError], whatever the other arguments; and so does a
    dielectric of -1/2 (a zero divisor [2 * dielectric + 1]), for a cutoff
    whose magnitude is not so small that its power overflows a double. *)
Theorem init_raises_on_zero_cutoff_or_divisor (ONE_4PI_EPS0 : Q)
    (cutoff_distance : Quantity 1) (switch_width : option (Quantity 1))
    (reaction_field_dielectric : Q) :
  _value cutoff_distance == 0
  \/ (2 * reaction_field_dielectric + 1 == 0
      /\ safe_magnitude <= Qabs (_value cutoff_distance)) ->
  UnshiftedReactionFieldForce.__init__ ONE_4PI_EPS0 cutoff_distance switch_width
    reaction_field_dielectric = Raise ZeroDivisionError
  /\ SwitchedReactionFieldForce.__init__ ONE_4PI_EPS0 cutoff_distance switch_width
       reaction_field_dielectric = Raise ZeroDivisionError.
Proof.
  intros H. apply init_degenerate.
  destruct H as [Hc | [He _]]; [left; exact Hc | right; exact He].
Qed.

Lemma init_raises_on_zero_cutoff_or_divisor_witness :
  SwitchedReactionFieldForce.__init__ example_ONE_4PI_EPS0 (angstroms 12)
    default_switch_width (- (1 # 2)) = Raise ZeroDivisionError
  /\ UnshiftedReactionFieldForce.__init__ example_ONE_4PI_EPS0 (nanometers 0)
       None 80 = Raise ZeroDivisionError.
Proof.
  split.
  - apply (proj2 (init_raises_on_zero_cutoff_or_divisor example_ONE_4PI_EPS0
                    (angstroms 12) default_switch_width (- (1 # 2))
                    (or_intror (conj eq_refl safe_magnitude_below_12)))).
  - apply (proj1 (init_raises_on_zero_cutoff_or_divisor example_ONE_4PI_EPS0
                    (nanometers 0) None 80 (or_introl eq_refl))).
Defined.

(** ** What the copy constructors return *)

Lemma from_nonbonded_force_returns K nb w :
  computable (getCutoffDistance nb) (getReactionFieldDielectric nb) ->
  forall from,
    from = UnshiftedReactionFieldForce.from_nonbonded_force K
    \/ from = SwitchedReactionFieldForce.from_nonbonded_force K ->
    exists energy,
      from (Some nb) w =
      Return (with_exclusions
                (with_particles (configured energy (getCutoffDistance nb) w)
                   (map charge_of (nb_particles nb)))
                (map pair_of (nb_exceptions nb))).
Proof.
  intros H from [-> | ->].
  - rewrite unshifted_from_nonbonded_force_eq, (unshifted_init_eq _ _ _ _ H).
    eexists. reflexivity.
  - rewrite switched_from_nonbonded_force_eq, (switched_init_eq _ _ _ _ H).
    eexists. reflexivity.
Qed.

Lemma from_nonbonded_force_degenerate K nb w :
  degenerate (getCutoffDistance nb) (getReactionFieldDielectric nb) ->
  forall from,
    from = UnshiftedReactionFieldForce.from_nonbonded_force K
    \/ from = SwitchedReactionFieldForce.from_nonbonded_force K ->
    from (Some nb) w = Raise ZeroDivisionError.
Proof.
  intros H from [-> | ->].
  - rewrite unshifted_from_nonbonded_force_eq.
    rewrite (proj1 (init_degenerate K _ w _ H)). reflexivity.
  - rewrite switched_from_nonbonded_force_eq.
    rewrite (proj2 (init_degenerate K _ w _ H)). reflexivity.
Qed.

(** X2. The copy constructors pass that error on: on a nonbonded force
    whose cutoff is zero, or whose dielectric is -1/2 (with a cutoff whose
    power does not overflow a double), [from_nonbonded_force] of either
    class raises [ZeroDivisionError], and so does [from_system] on a system
    whose one nonbonded force it is. *)
Theorem copy_raises_on_zero_cutoff_or_divisor (ONE_4PI_EPS0 : Q)
    (nonbonded_force : NonbondedForce) (switch_width : option (Quantity 1)) :
  nb_cutoffDistance nonbonded_force == 0
  \/ (2 * nb_rfDielectric nonbonded_force + 1 == 0
      /\ safe_magnitude <= Qabs (nb_cutoffDistance nonbonded_force)) ->
  UnshiftedReactionFieldForce.from_nonbonded_force ONE_4PI_EPS0
    (Some nonbonded_force) switch_width = Raise ZeroDivisionError
  /\ SwitchedReactionFieldForce.from_nonbonded_force ONE_4PI_EPS0
       (Some nonbonded_force) switch_width = Raise ZeroDivisionError
  /\ (forall system,
         nonbonded_forces system = [nonbonded_force] ->
         UnshiftedReactionFieldForce.from_system ONE_4PI_EPS0 system switch_width
         = Raise ZeroDivisionError
         /\ SwitchedReactionFieldForce.from_system ONE_4PI_EPS0 system switch_width
            = Raise ZeroDivisionError).
Proof.
  intros H.
  assert (Hdeg : degenerate (getCutoffDistance nonbonded_force)
                   (getReactionFieldDielectric nonbonded_force)).
  { destruct H as [Hc | [He _]]; [left; exact Hc | right; exact He]. }
  pose proof (from_nonbonded_force_degenerate ONE_4PI_EPS0 _ switch_width Hdeg _
                (or_introl eq_refl)) as HU.
  pose proof (from_nonbonded_force_degenerate ONE_4PI_EPS0 _ switch_width Hdeg _
                (or_intror eq_refl)) as HS.
  split; [exact HU |]. split; [exact HS |].
  intros system Hone.
  unfold UnshiftedReactionFieldForce.from_system, SwitchedReactionFieldForce.from_system.
  rewrite find_nonbonded_force_eq, Hone. cbn [bind]. split; assumption.
Qed.

Lemma copy_raises_on_zero_cutoff_or_divisor_witness :
  UnshiftedReactionFieldForce.from_nonbonded_force example_ONE_4PI_EPS0
    (Some example_degenerate_force) default_switch_width = Raise ZeroDivisionError.
Proof.
  apply (proj1 (copy_raises_on_zero_cutoff_or_divisor example_ONE_4PI_EPS0
                  example_degenerate_force default_switch_width
                  (or_intror (conj eq_refl safe_magnitude_below_1)))).
Defined.

(** X3. The force that [from_nonbonded_force] returns has the cutoff of the
    source force and is configured as by the constructor for that cutoff and
    the given switch width: periodic cutoff, no long-range correction, and
    the switching distance at the source cutoff minus the switch width (or
    no switching for [None]); it declares the one per-particle parameter
    [charge]. *)
Theorem from_nonbonded_force_keeps_cutoff (ONE_4PI_EPS0 : Q)
    (nonbonded_force : NonbondedForce) (switch_width : option (Quantity 1)) :
  ~ nb_cutoffDistance nonbonded_force == 0 ->
  ~ 2 * nb_rfDielectric nonbonded_force + 1 == 0 ->
  forall from,
    from = UnshiftedReactionFieldForce.from_nonbonded_force ONE_4PI_EPS0
    \/ from = SwitchedReactionFieldForce.from_nonbonded_force ONE_4PI_EPS0 ->
    exists rf,
      from (Some nonbonded_force) switch_width = Return rf
      /\ cutoffDistance rf == nb_cutoffDistance nonbonded_force
      /\ configured_for rf (getCutoffDistance nonbonded_force) switch_width
      /\ perParticleParameters rf = ["charge"%string].
Proof.
  intros Hc He from Hfrom.
  destruct (from_nonbonded_force_returns ONE_4PI_EPS0 _ switch_width
              (computable_source _ Hc He) from Hfrom) as (energy & ->).
  eexists. split; [reflexivity |]. split; [| split].
  - cbn [with_exclusions with_particles configured cutoffDistance].
    apply md_getCutoffDistance.
  - apply (configured_configured_for energy).
  - reflexivity.
Qed.

Lemma from_nonbonded_force_keeps_cutoff_witness :
  exists rf,
    SwitchedReactionFieldForce.from_nonbonded_force example_ONE_4PI_EPS0
      (Some example_nonbonded_force) default_switch_width = Return rf
    /\ cutoffDistance rf == 12 # 10
    /\ switchingDistance rf == 11 # 10.
Proof.
  destruct (from_nonbonded_force_keeps_cutoff example_ONE_4PI_EPS0
              example_nonbonded_force default_switch_width)
    with (from := SwitchedReactionFieldForce.from_nonbonded_force example_ONE_4PI_EPS0)
    as (rf & Hrf & Hcut & (_ & _ & _ & _ & Hsw) & _).
  - discriminate.
  - discriminate.
  - right. reflexivity.
  - exists rf. split; [exact Hrf |]. split; [exact Hcut |].
    rewrite Hsw. reflexivity.
Defined.

(** X4. The force that [from_nonbonded_force] returns is well formed for
    the engine: each particle has exactly one value, as many as the force
    declares per-particle parameters; and when every exception of the source
    is between particles of the source, every exclusion of the copy is
    between particles of the copy. *)
Theorem from_nonbonded_force_well_formed (ONE_4PI_EPS0 : Q)
    (nonbonded_force : NonbondedForce) (switch_width : option (Quantity 1)) :
  ~ nb_cutoffDistance nonbonded_force == 0 ->
  ~ 2 * nb_rfDielectric nonbonded_force + 1 == 0 ->
  forall from,
    from = UnshiftedReactionFieldForce.from_nonbonded_force ONE_4PI_EPS0
    \/ from = SwitchedReactionFieldForce.from_nonbonded_force ONE_4PI_EPS0 ->
    exists rf,
      from (Some nonbonded_force) switch_width = Return rf
      /\ valid_particles rf
      /\ (valid_exceptions nonbonded_force -> valid_exclusions rf).
Proof.
  intros Hc He from Hfrom.
  destruct (from_nonbonded_force_returns ONE_4PI_EPS0 _ switch_width
              (computable_source _ Hc He) from Hfrom) as (energy & ->).
  eexists. split; [reflexivity |]. split.
  - unfold valid_particles.
    cbn [with_exclusions with_particles configured particles perParticleParameters].
    apply Forall_map. apply Forall_forall. intros p _. reflexivity.
  - unfold valid_exceptions, valid_exclusions, getNumParticles.
    cbn [with_exclusions with_particles configured particles exclusions].
    rewrite length_map. intros Hvalid.
    apply Forall_map. revert Hvalid. apply Forall_impl.
    intros e Hlt. exact Hlt.
Qed.

Lemma from_nonbonded_force_well_formed_witness :
  exists rf,
    UnshiftedReactionFieldForce.from_nonbonded_force example_ONE_4PI_EPS0
      (Some example_nonbonded_force) None = Return rf
    /\ valid_particles rf /\ valid_exclusions rf.
Proof.
  destruct (from_nonbonded_force_well_formed example_ONE_4PI_EPS0
              example_nonbonded_force None)
    with (from := UnshiftedReactionFieldForce.from_nonbonded_force example_ONE_4PI_EPS0)
    as (rf & Hrf & Hp & Hx).
  - discriminate.
  - discriminate.
  - left. reflexivity.
  - exists rf. split; [exact Hrf |]. split; [exact Hp |].
    apply Hx. repeat constructor.
Defined.

(** ** Systems *)



(** X5. From a system with exactly one nonbonded force, whose cutoff is not
    zero and whose dielectric is not -1/2, [from_system] of either class
    returns a force that copies the particles and the exceptions of that
    force and is configured for its cutoff and the given switch width,
    whatever other forces the system holds. *)
Theorem from_system_copies_the_nonbonded_force (ONE_4PI_EPS0 : Q) (system : System)
    (nonbonded_force : NonbondedForce) (switch_width : option (Quantity 1)) :
  nonbonded_forces system = [nonbonded_force] ->
  ~ nb_cutoffDistance nonbonded_force == 0 ->
  ~ 2 * nb_rfDielectric nonbonded_force + 1 == 0 ->
  forall from_system,
    from_system = UnshiftedReactionFieldForce.from_system ONE_4PI_EPS0
    \/ from_system = SwitchedReactionFieldForce.from_system ONE_4PI_EPS0 ->
    exists rf,
      from_system system switch_width = Return rf
      /\ copies rf nonbonded_force
      /\ configured_for rf (getCutoffDistance nonbonded_force) switch_width.
Proof.
  intros Hone Hc He from_system Hfrom.
  pose proof (computable_source _ Hc He) as H.
  assert (E : exists energy,
             from_system system switch_width =
             Return (with_exclusions
                       (with_particles
                          (configured energy (getCutoffDistance nonbonded_force)
                             switch_width)
                          (map charge_of (nb_particles nonbonded_force)))
                       (map pair_of (nb_exceptions nonbonded_force)))).
  { destruct Hfrom as [-> | ->].
    - unfold UnshiftedReactionFieldForce.from_system.
      rewrite find_nonbonded_force_eq, Hone. cbn [bind].
      apply (from_nonbonded_force_returns ONE_4PI_EPS0 _ switch_width H).
      left. reflexivity.
    - unfold SwitchedReactionFieldForce.from_system.
      rewrite find_nonbonded_force_eq, Hone. cbn [bind].
      apply (from_nonbonded_force_returns ONE_4PI_EPS0 _ switch_width H).
      right. reflexivity. }
  destruct E as (energy & ->). eexists. split; [reflexivity |]. split.
  - apply (copies_of_configured energy).
  - apply (configured_configured_for energy).
Qed.

Lemma from_system_copies_the_nonbonded_force_witness :
  exists rf,
    SwitchedReactionFieldForce.from_system example_ONE_4PI_EPS0 example_system_one
      default_switch_width = Return rf
    /\ copies rf example_nonbonded_force.
Proof.
  destruct (from_system_copies_the_nonbonded_force example_ONE_4PI_EPS0
              example_system_one example_nonbonded_force default_switch_width)
    with (from_system := SwitchedReactionFieldForce.from_system example_ONE_4PI_EPS0)
    as (rf & Hrf & Hcopies & _).
  - reflexivity.
  - discriminate.
  - discriminate.
  - right. reflexivity.
  - exists rf. split; [exact Hrf | exact Hcopies].
Defined.



(** ** The generator and the locator *)

Lemma resume_spec forces :
  match nonbonded_of forces with
  | [] => resume forces = (None, Finished)
  | f :: fs =>
      exists rest, resume forces = (Some f, Suspended rest) /\ nonbonded_of rest = fs
  end.
Proof.
  destruct (nonbonded_of forces) as [| f fs] eqn:E.
  - apply resume_nil. exact E.
  - apply resume_cons. exact E.
Qed.

(** X7. The locator agrees with the generator.  [find_nonbonded_force]
    returns [None] exactly when the first [next] stops; it returns a force
    exactly when the first [next] yields that force and the second stops;
    and it raises the error for several nonbonded forces exactly when the
    first two calls of [next] both yield. *)
Theorem find_agrees_with_generator (system : System) :
  (find_nonbonded_force system = Return None
   <-> next (iterate_nonbonded_forces system) = (None, Finished))
  /\ (forall f,
         find_nonbonded_force system = Return (Some f)
         <-> exists g, next (iterate_nonbonded_forces system) = (Some f, g)
                       /\ next g = (None, Finished))
  /\ (find_nonbonded_force system
      = Raise (ValueError "The System has multiple NonbondedForces")
      <-> exists f g f' g',
            next (iterate_nonbonded_forces system) = (Some f, g)
            /\ next g = (Some f', g')).
Proof.
  rewrite find_nonbonded_force_eq. destruct system as [forces].
  change (nonbonded_forces (mkSystem forces)) with (nonbonded_of forces).
  cbn [iterate_nonbonded_forces next getForces].
  pose proof (resume_spec forces) as Hfirst.
  destruct (nonbonded_of forces) as [| f1 fs].
  - rewrite Hfirst. split; [| split].
    + split; reflexivity.
    + intros f. split; [discriminate | intros (g & H & _); discriminate].
    + split; [discriminate | intros (f & g & f' & g' & H & _); discriminate].
  - destruct Hfirst as (rest & Hfirst & Hrest). rewrite Hfirst.
    pose proof (resume_spec rest) as Hsecond. rewrite Hrest in Hsecond.
    destruct fs as [| f2 fs].
    + split; [| split].
      * split; discriminate.
      * intros f. split.
        -- intros E. injection E as <-. exists (Suspended rest).
           split; [reflexivity | exact Hsecond].
        -- intros (g & E & _). injection E as <- _. reflexivity.
      * split; [discriminate |].
        intros (f & g & f' & g' & E & Hnext). injection E as _ <-.
        cbn [next] in Hnext. rewrite Hsecond in Hnext. discriminate.
    + destruct Hsecond as (rest' & Hsecond & _). split; [| split].
      * split; discriminate.
      * intros f. split; [discriminate |].
        intros (g & E & Hnext). injection E as _ <-.
        cbn [next] in Hnext. rewrite Hsecond in Hnext. discriminate.
      * split; [| reflexivity].
        intros _. exists f1, (Suspended rest), f2, (Suspended rest').
        split; [reflexivity | exact Hsecond].
Qed.

Lemma collect_prefix fuel rest :
  (fuel <= List.length (nonbonded_of rest))%nat ->
  collect fuel (Suspended rest) = (firstn fuel (nonbonded_of rest), false).
Proof.
  revert rest. induction fuel as [| fuel IH]; intros rest Hfuel; [reflexivity |].
  pose proof (resume_spec rest) as Hres.
  destruct (nonbonded_of rest) as [| f fs]; [cbn [List.length] in Hfuel; lia |].
  destruct Hres as (rest' & Hres & Hrest').
  cbn [collect next]. rewrite Hres. cbn [List.length] in Hfuel.
  rewrite IH by (rewrite Hrest'; lia).
  rewrite Hrest'. reflexivity.
Qed.

(** X8. The generator is lazy: [k] calls of [next], for [k] at most the
    number of nonbonded forces of the system, yield the first [k] of them
    and do not reach the stop. *)
Theorem iterate_nonbonded_forces_prefix (system : System) (k : nat) :
  (k <= List.length (nonbonded_forces system))%nat ->
  collect k (iterate_nonbonded_forces system)
  = (firstn k (nonbonded_forces system), false).
Proof.
  destruct system as [forces]. intros Hk.
  destruct k as [| k]; [reflexivity |].
  exact (collect_prefix (S k) forces Hk).
Qed.

Lemma iterate_nonbonded_forces_prefix_witness :
  collect 1 (iterate_nonbonded_forces example_system_two)
  = ([example_nonbonded_force], false).
Proof.
  apply (iterate_nonbonded_forces_prefix example_system_two 1).
  apply le_S. apply le_n.
Defined.

(** ** The copy and the constructor *)

(** X9. [from_nonbonded_force] builds what the constructor of its class
    builds for the cutoff and the dielectric that the source reports: either
    both raise, and the same exception, or both return, and forces with the
    same energy expression, so with the same constants in it, whatever the
    two switch widths. *)
Theorem from_nonbonded_force_matches_constructor (ONE_4PI_EPS0 : Q)
    (nonbonded_force : NonbondedForce) (switch_width switch_width' : option (Quantity 1)) :
  agree_on_expression
    (UnshiftedReactionFieldForce.__init__ ONE_4PI_EPS0
       (getCutoffDistance nonbonded_force) switch_width
       (getReactionFieldDielectric nonbonded_force))
    (UnshiftedReactionFieldForce.from_nonbonded_force ONE_4PI_EPS0
       (Some nonbonded_force) switch_width')
  /\ agree_on_expression
       (SwitchedReactionFieldForce.__init__ ONE_4PI_EPS0
          (getCutoffDistance nonbonded_force) switch_width
          (getReactionFieldDielectric nonbonded_force))
       (SwitchedReactionFieldForce.from_nonbonded_force ONE_4PI_EPS0
          (Some nonbonded_force) switch_width').
Proof.
  destruct (degenerate_or_computable (getCutoffDistance nonbonded_force)
              (getReactionFieldDielectric nonbonded_force)) as [Hdeg | Hcomp].
  - split; left; exists ZeroDivisionError; split.
    + apply (init_degenerate ONE_4PI_EPS0 _ switch_width _ Hdeg).
    + apply (from_nonbonded_force_degenerate ONE_4PI_EPS0 _ switch_width' Hdeg).
      left. reflexivity.
    + apply (init_degenerate ONE_4PI_EPS0 _ switch_width _ Hdeg).
    + apply (from_nonbonded_force_degenerate ONE_4PI_EPS0 _ switch_width' Hdeg).
      right. reflexivity.
  - split; right.
    + rewrite unshifted_from_nonbonded_force_eq.
      rewrite !(unshifted_init_eq _ _ _ _ Hcomp). cbn [bind].
      eexists. eexists. split; [reflexivity |]. split; reflexivity.
    + rewrite switched_from_nonbonded_force_eq.
      rewrite !(switched_init_eq _ _ _ _ Hcomp). cbn [bind].
      eexists. eexists. split; [reflexivity |]. split; reflexivity.
Qed.

(** ** The two classes *)

(** X10. On the same inputs the two classes build forces that differ in
    the energy expression and in nothing else: the per-particle parameter,
    the nonbonded method, the cutoff, the long-range correction, the
    switching and, for the copy constructor, the particles and the
    exclusions are the same. *)
Theorem classes_differ_in_expression_only (ONE_4PI_EPS0 : Q)
    (cutoff_distance : Quantity 1) (switch_width : option (Quantity 1))
    (reaction_field_dielectric : Q) (nonbonded_force : NonbondedForce) :
  computable cutoff_distance reaction_field_dielectric ->
  ~ nb_cutoffDistance nonbonded_force == 0 ->
  ~ 2 * nb_rfDielectric nonbonded_force + 1 == 0 ->
  (exists unshifted switched,
      UnshiftedReactionFieldForce.__init__ ONE_4PI_EPS0 cutoff_distance switch_width
        reaction_field_dielectric = Return unshifted
      /\ SwitchedReactionFieldForce.__init__ ONE_4PI_EPS0 cutoff_distance switch_width
           reaction_field_dielectric = Return switched
      /\ same_configuration unshifted switched
      /\ energyFunction unshifted <> energyFunction switched)
  /\ (exists unshifted switched,
         UnshiftedReactionFieldForce.from_nonbonded_force ONE_4PI_EPS0
           (Some nonbonded_force) switch_width = Return unshifted
         /\ SwitchedReactionFieldForce.from_nonbonded_force ONE_4PI_EPS0
              (Some nonbonded_force) switch_width = Return switched
         /\ same_configuration unshifted switched
         /\ energyFunction unshifted <> energyFunction switched).
Proof.
  intros H Hc He. pose proof (computable_source _ Hc He) as Hnb. split.
  - rewrite (unshifted_init_eq _ _ _ _ H), (switched_init_eq _ _ _ _ H).
    eexists. eexists. split; [reflexivity |]. split; [reflexivity |]. split.
    + unfold same_configuration. cbn. repeat split; reflexivity.
    + cbn [configured energyFunction].
      rewrite unshifted_energy_expression_eq, switched_energy_expression_eq.
      cbn [append]. discriminate.
  - rewrite unshifted_from_nonbonded_force_eq, switched_from_nonbonded_force_eq.
    rewrite (unshifted_init_eq _ _ _ _ Hnb), (switched_init_eq _ _ _ _ Hnb).
    cbn [bind].
    eexists. eexists. split; [reflexivity |]. split; [reflexivity |]. split.
    + unfold same_configuration. cbn. repeat split; reflexivity.
    + cbn [configured with_particles with_exclusions energyFunction].
      rewrite unshifted_energy_expression_eq, switched_energy_expression_eq.
      cbn [append]. discriminate.
Qed.

Lemma classes_differ_in_expression_only_witness :
  exists unshifted switched,
    UnshiftedReactionFieldForce.from_nonbonded_force example_ONE_4PI_EPS0
      (Some example_nonbonded_force) default_switch_width = Return unshifted
    /\ SwitchedReactionFieldForce.from_nonbonded_force example_ONE_4PI_EPS0
         (Some example_nonbonded_force) default_switch_width = Return switched
    /\ same_configuration unshifted switched
    /\ energyFunction unshifted <> energyFunction switched.
Proof.
  apply (proj2 (classes_differ_in_expression_only example_ONE_4PI_EPS0
                  default_cutoff_distance default_switch_width
                  default_reaction_field_dielectric example_nonbonded_force
                  (conj (fun E => Qeq_bool_neq 15 0 eq_refl E)
                        (fun E => Qeq_bool_neq (2 * (783 # 10) + 1) 0 eq_refl E))
                  (fun E => Qeq_bool_neq (12 # 10) 0 eq_refl E)
                  (fun E => Qeq_bool_neq (2 * 80 + 1) 0 eq_refl E))).
Defined.

(** ** The constants and the energy at the cutoff *)

Lemma shift_formula d eps :
  ~ d == 0 -> ~ 2 * eps + 1 == 0 ->
  d ^ (-1) * (3 * eps) / (2 * eps + 1)
  == d ^ (-1) + d ^ (-3) * (eps - 1) / (2 * eps + 1) * d ^ 2.
Proof.
  intros Hd He.
  assert (E : d ^ (-3) * d ^ 2 == d ^ (-1)).
  { rewrite <- Qpower_plus by exact Hd. reflexivity. }
  assert (E' : d ^ (-3) * (eps - 1) / (2 * eps + 1) * d ^ 2
               == d ^ (-3) * d ^ 2 * ((eps - 1) / (2 * eps + 1)))
    by (unfold Qdiv; ring).
  rewrite E', E. field. exact He.
Qed.

(** X11. The [c_rf] of the switched class is the value of
    [r^(-1) + k_rf*r^2] at the cutoff: with the constants as computed, the
    energy of the switched class is zero at the cutoff for every pair of
    charges, and the energy of the unshifted class at the cutoff is the
    shift [ONE_4PI_EPS0*chargeprod*c_rf] that the switched class takes
    off.  (The expressions hold the constants rounded to six decimals.) *)
Theorem switched_energy_vanishes_at_cutoff (cutoff_distance : Quantity 1)
    (reaction_field_dielectric : Q) :
  computable cutoff_distance reaction_field_dielectric ->
  exists k_rf c_rf,
    SwitchedReactionFieldForce.k_rf cutoff_distance reaction_field_dielectric
    = Return k_rf
    /\ SwitchedReactionFieldForce.c_rf cutoff_distance reaction_field_dielectric
       = Return c_rf
    /\ md c_rf == md cutoff_distance ^ (-1) + md k_rf * md cutoff_distance ^ 2
    /\ (forall ONE_4PI_EPS0 chargeprod,
           switched_energy ONE_4PI_EPS0 chargeprod (md k_rf) (md c_rf)
             (md cutoff_distance) == 0)
    /\ (forall ONE_4PI_EPS0 chargeprod,
           unshifted_energy ONE_4PI_EPS0 chargeprod (md k_rf) (md cutoff_distance)
           == ONE_4PI_EPS0 * chargeprod * md c_rf).
Proof.
  intros H.
  destruct (k_rf_md _ _ H) as (k & Hk & _ & _ & Hkmd).
  destruct (c_rf_md _ _ H) as (c & Hc & _ & _ & Hcmd).
  assert (Hshift : md c == md cutoff_distance ^ (-1) + md k * md cutoff_distance ^ 2).
  { rewrite Hcmd, Hkmd. destruct H as [Hv He].
    apply shift_formula; [apply md_nonzero; exact Hv | exact He]. }
  exists k, c. split; [exact Hk |]. split; [exact Hc |]. split; [exact Hshift |].
  split; intros K chargeprod.
  - unfold switched_energy. rewrite Hshift. ring.
  - unfold unshifted_energy. rewrite Hshift. ring.
Qed.

Lemma switched_energy_vanishes_at_cutoff_witness :
  exists k_rf c_rf,
    SwitchedReactionFieldForce.k_rf (angstroms 12) 80 = Return k_rf
    /\ SwitchedReactionFieldForce.c_rf (angstroms 12) 80 = Return c_rf
    /\ switched_energy example_ONE_4PI_EPS0 (- (1 # 2)) (md k_rf) (md c_rf) (12 # 10)
       == 0.
Proof.
  destruct (switched_energy_vanishes_at_cutoff (angstroms 12) 80)
    as (k & c & Hk & Hc & _ & Hzero & _).
  - split; discriminate.
  - exists k, c. split; [exact Hk |]. split; [exact Hc |].
    exact (Hzero example_ONE_4PI_EPS0 (- (1 # 2))).
Defined.

Lemma formula_below P x l eps :
  0 < P -> 0 < 2 * eps + 1 -> x < l * (2 * eps + 1) ->
  P * x / (2 * eps + 1) < P * l.
Proof.
  intros HP HD Hx. apply Qlt_shift_div_r; [exact HD |].
  rewrite <- Qmult_assoc. apply Qmult_lt_l; [exact HP | exact Hx].
Qed.

Lemma formula_above P x l eps :
  0 < P -> 0 < 2 * eps + 1 -> l * (2 * eps + 1) < x ->
  P * l < P * x / (2 * eps + 1).
Proof.
  intros HP HD Hx. apply Qlt_shift_div_l; [exact HD |].
  rewrite <- Qmult_assoc. apply Qmult_lt_l; [exact HP | exact Hx].
Qed.

Lemma formula_monotone P x1 x2 e1 e2 :
  0 < P -> 0 < 2 * e1 + 1 -> 0 < 2 * e2 + 1 ->
  x1 * (2 * e2 + 1) < x2 * (2 * e1 + 1) ->
  P * x1 / (2 * e1 + 1) < P * x2 / (2 * e2 + 1).
Proof.
  intros HP H1 H2 Hx.
  apply Qlt_shift_div_r; [exact H1 |].
  assert (E : P * x2 / (2 * e2 + 1) * (2 * e1 + 1)
              == P * (x2 * (2 * e1 + 1)) / (2 * e2 + 1))
    by (unfold Qdiv; ring).
  rewrite E. apply Qlt_shift_div_l; [exact H2 |].
  rewrite <- Qmult_assoc. apply Qmult_lt_l; [exact HP | exact Hx].
Qed.

(** X12. For a positive cutoff and a dielectric above 0, the constants stay
    strictly inside the values they tend to: [k_rf] is above [- cutoff^-3]
    and below [cutoff^-3 / 2], and [c_rf] is below [3/2 * cutoff^-1]. *)
Theorem constants_bounded (cutoff_distance : Quantity 1)
    (reaction_field_dielectric : Q) :
  0 < _value cutoff_distance -> 0 < reaction_field_dielectric ->
  exists k_rf c_rf,
    SwitchedReactionFieldForce.k_rf cutoff_distance reaction_field_dielectric
    = Return k_rf
    /\ UnshiftedReactionFieldForce.k_rf cutoff_distance reaction_field_dielectric
       = Return k_rf
    /\ SwitchedReactionFieldForce.c_rf cutoff_distance reaction_field_dielectric
       = Return c_rf
    /\ md cutoff_distance ^ (-3) * - (1) < md k_rf
    /\ md k_rf < md cutoff_distance ^ (-3) * (1 # 2)
    /\ md c_rf < md cutoff_distance ^ (-1) * (3 # 2).
Proof.
  intros Hc He.
  pose proof (computable_pos _ _ Hc He) as H.
  pose proof (md_pos _ Hc) as Hd.
  destruct (k_rf_md _ _ H) as (k & Hk & _ & _ & Hkmd).
  destruct (c_rf_md _ _ H) as (c & Hcrf & _ & _ & Hcmd).
  pose proof (Qpower_0_lt _ (-1) Hd) as HP1.
  pose proof (Qpower_0_lt _ (-3) Hd) as HP3.
  exists k, c. split; [exact Hk |]. split; [exact Hk |]. split; [exact Hcrf |].
  rewrite Hkmd, Hcmd. split; [| split].
  - apply formula_above; [exact HP3 | lra | lra].
  - apply formula_below; [exact HP3 | lra | lra].
  - apply formula_below; [exact HP1 | lra | lra].
Qed.

Lemma constants_bounded_witness :
  exists k_rf c_rf,
    SwitchedReactionFieldForce.k_rf default_cutoff_distance
      default_reaction_field_dielectric = Return k_rf
    /\ SwitchedReactionFieldForce.c_rf default_cutoff_distance
         default_reaction_field_dielectric = Return c_rf
    /\ md k_rf < md default_cutoff_distance ^ (-3) * (1 # 2)
    /\ md c_rf < md default_cutoff_distance ^ (-1) * (3 # 2).
Proof.
  destruct (constants_bounded default_cutoff_distance
              default_reaction_field_dielectric)
    as (k & c & Hk & _ & Hc & _ & Hkb & Hcb); try reflexivity.
  exists k, c. split; [exact Hk |]. split; [exact Hc |].
  split; [exact Hkb | exact Hcb].
Defined.

(** X13. For a positive cutoff, both constants grow with the dielectric:
    of two dielectrics above 0, the greater gives the greater [k_rf] and the
    greater [c_rf]. *)
Theorem constants_grow_with_dielectric (cutoff_distance : Quantity 1)
    (dielectric dielectric' : Q) :
  0 < _value cutoff_distance -> 0 < dielectric -> dielectric < dielectric' ->
  exists k_rf k_rf' c_rf c_rf',
    UnshiftedReactionFieldForce.k_rf cutoff_distance dielectric = Return k_rf
    /\ UnshiftedReactionFieldForce.k_rf cutoff_distance dielectric' = Return k_rf'
    /\ SwitchedReactionFieldForce.c_rf cutoff_distance dielectric = Return c_rf
    /\ SwitchedReactionFieldForce.c_rf cutoff_distance dielectric' = Return c_rf'
    /\ md k_rf < md k_rf'
    /\ md c_rf < md c_rf'.
Proof.
  intros Hc He Hlt.
  assert (He' : 0 < dielectric') by lra.
  pose proof (md_pos _ Hc) as Hd.
  destruct (k_rf_md _ _ (computable_pos _ _ Hc He)) as (k & Hk & _ & _ & Hkmd).
  destruct (k_rf_md _ _ (computable_pos _ _ Hc He')) as (k' & Hk' & _ & _ & Hkmd').
  destruct (c_rf_md _ _ (computable_pos _ _ Hc He)) as (c & Hcrf & _ & _ & Hcmd).
  destruct (c_rf_md _ _ (computable_pos _ _ Hc He')) as (c' & Hcrf' & _ & _ & Hcmd').
  pose proof (Qpower_0_lt _ (-1) Hd) as HP1.
  pose proof (Qpower_0_lt _ (-3) Hd) as HP3.
  exists k, k', c, c'.
  split; [exact Hk |]. split; [exact Hk' |].
  split; [exact Hcrf |]. split; [exact Hcrf' |].
  rewrite Hkmd, Hkmd', Hcmd, Hcmd'. split.
  - apply formula_monotone; [exact HP3 | lra | lra |].
    assert (E : (dielectric' - 1) * (2 * dielectric + 1)
                - (dielectric - 1) * (2 * dielectric' + 1)
                == 3 * (dielectric' - dielectric)) by ring.
    lra.
  - apply formula_monotone; [exact HP1 | lra | lra |].
    assert (E : 3 * dielectric' * (2 * dielectric + 1)
                - 3 * dielectric * (2 * dielectric' + 1)
                == 3 * (dielectric' - dielectric)) by ring.
    lra.
Qed.

Lemma constants_grow_with_dielectric_witness :
  exists k_rf k_rf',
    UnshiftedReactionFieldForce.k_rf (angstroms 12) 2 = Return k_rf
    /\ UnshiftedReactionFieldForce.k_rf (angstroms 12) 80 = Return k_rf'
    /\ md k_rf < md k_rf'.
Proof.
  destruct (constants_grow_with_dielectric (angstroms 12) 2 80)
    as (k & k' & c & c' & Hk & Hk' & _ & _ & Hlt & _); try reflexivity.
  exists k, k'. split; [exact Hk |]. split; [exact Hk' | exact Hlt].
Defined.

(** ** The precision of the literals *)

Lemma round_half_even_small q : 0 <= q -> q < 1 # 2 -> round_half_even q = 0%Z.
Proof.
  intros H0 H1.
  assert (Hf : Qfloor q = 0%Z).
  { pose proof (Qfloor_le q) as Hle. pose proof (Qlt_floor q) as Hlt.
    assert (Hup : (Qfloor q < 1)%Z).
    { rewrite Zlt_Qlt. apply Qle_lt_trans with q; [exact Hle |].
      apply Qlt_trans with (1 # 2); [exact H1 | reflexivity]. }
    assert (Hlow : (0 < Qfloor q + 1)%Z).
    { rewrite Zlt_Qlt. apply Qle_lt_trans with q; [exact H0 | exact Hlt]. }
    lia. }
  unfold round_half_even. cbv zeta. rewrite Hf.
  assert (Hc : (q - inject_Z 0 ?= 1 # 2) = Lt).
  { apply Qlt_alt. unfold Qminus. rewrite Qplus_0_r. exact H1. }
  rewrite Hc. reflexivity.
Qed.

Lemma format_f_small x : 0 <= x -> x < 1 # 2000000 -> format_f x = "0.000000"%string.
Proof.
  intros H0 H1. unfold format_f. cbv zeta.
  rewrite round_half_even_small.
  - destruct (Qlt_le_dec x 0) as [Hneg | _]; [exfalso; lra | reflexivity].
  - rewrite Qabs_pos by exact H0. lra.
  - rewrite Qabs_pos by exact H0. lra.
Qed.

Lemma large_cutoff_power d : 200 <= d -> d ^ (-3) <= 1 # 8000000.
Proof.
  intros Hd.
  assert (H2 : 40000 <= d * d).
  { apply (Qmult_le_compat_nonneg 200 d 200 d); split; (lra || discriminate). }
  assert (H3 : 8000000 <= d * (d * d)).
  { apply (Qmult_le_compat_nonneg 200 d 40000 (d * d)); split; (lra || discriminate). }
  change (d ^ (-3)) with (/ (d * (d * d))).
  apply Qle_shift_inv_r; lra.
Qed.

(** X14. The constants are written with six decimals, so a small [k_rf] is
    lost: for a cutoff of 200 nm or more and a dielectric of 1 or more,
    where [k_rf] is at most 6.25e-8 nm^-3, the energy expression of the
    unshifted class reads [k_rf = 0.000000]. *)
Theorem k_rf_literal_vanishes_for_large_cutoff (ONE_4PI_EPS0 : Q)
    (cutoff_distance : Quantity 1) (switch_width : option (Quantity 1))
    (reaction_field_dielectric : Q) :
  200 <= md cutoff_distance -> 1 <= reaction_field_dielectric ->
  exists rf,
    UnshiftedReactionFieldForce.__init__ ONE_4PI_EPS0 cutoff_distance switch_width
      reaction_field_dielectric = Return rf
    /\ energyFunction rf =
       ("ONE_4PI_EPS0*chargeprod*(r^(-1) + k_rf*r^2);chargeprod = charge1*charge2;k_rf = 0.000000;ONE_4PI_EPS0 = "
        ++ format_f ONE_4PI_EPS0 ++ ";")%string.
Proof.
  intros Hd He.
  assert (H : computable cutoff_distance reaction_field_dielectric).
  { split.
    - intros E. rewrite md_length, E in Hd. lra.
    - intros E. lra. }
  rewrite (unshifted_init_eq _ _ _ _ H). eexists. split; [reflexivity |].
  cbn [configured energyFunction].
  rewrite unshifted_energy_expression_eq, (format_f_comp _ _ (md_k_rf _ _)).
  assert (HP : 0 < md cutoff_distance ^ (-3)) by (apply Qpower_0_lt; lra).
  pose proof (large_cutoff_power _ Hd) as Hsmall.
  rewrite format_f_small; [reflexivity | |].
  - apply Qle_shift_div_l; [lra |]. rewrite Qmult_0_l.
    apply Qmult_le_0_compat; lra.
  - apply Qlt_le_trans with (md cutoff_distance ^ (-3) * (1 # 2));
      [apply formula_below; [exact HP | lra | lra] | lra].
Qed.

Lemma k_rf_literal_vanishes_for_large_cutoff_witness :
  exists rf,
    UnshiftedReactionFieldForce.__init__ example_ONE_4PI_EPS0 (angstroms 2000)
      default_switch_width default_reaction_field_dielectric = Return rf
    /\ energyFunction rf =
       "ONE_4PI_EPS0*chargeprod*(r^(-1) + k_rf*r^2);chargeprod = charge1*charge2;k_rf = 0.000000;ONE_4PI_EPS0 = 138.935456;"%string.
Proof.
  destruct (k_rf_literal_vanishes_for_large_cutoff example_ONE_4PI_EPS0
              (angstroms 2000) default_switch_width
              default_reaction_field_dielectric) as (rf & Hrf & He).
  - discriminate.
  - discriminate.
  - exists rf. split; [exact Hrf |]. rewrite He. reflexivity.
Defined.

(** ** What the copy reads of the source, and the order of the forces *)

Lemma map_charge_of ps :
  map charge_of ps = map (fun charge => [charge]) (map p_charge ps).
Proof. rewrite map_map. reflexivity. Qed.

(** X15. [from_nonbonded_force] reads of the source its cutoff, its
    dielectric, the charges of its particles and the pairs of its
    exceptions, and nothing else: two sources that agree on these, whatever
    their sigmas, epsilons and charge products, give the same result. *)
Theorem from_nonbonded_force_reads_charges_and_pairs_only (ONE_4PI_EPS0 : Q)
    (nonbonded_force nonbonded_force' : NonbondedForce)
    (switch_width : option (Quantity 1)) :
  nb_cutoffDistance nonbonded_force = nb_cutoffDistance nonbonded_force' ->
  nb_rfDielectric nonbonded_force = nb_rfDielectric nonbonded_force' ->
  map p_charge (nb_particles nonbonded_force)
  = map p_charge (nb_particles nonbonded_force') ->
  map pair_of (nb_exceptions nonbonded_force)
  = map pair_of (nb_exceptions nonbonded_force') ->
  UnshiftedReactionFieldForce.from_nonbonded_force ONE_4PI_EPS0
    (Some nonbonded_force) switch_width
  = UnshiftedReactionFieldForce.from_nonbonded_force ONE_4PI_EPS0
      (Some nonbonded_force') switch_width
  /\ SwitchedReactionFieldForce.from_nonbonded_force ONE_4PI_EPS0
       (Some nonbonded_force) switch_width
     = SwitchedReactionFieldForce.from_nonbonded_force ONE_4PI_EPS0
         (Some nonbonded_force') switch_width.
Proof.
  intros Hc He Hp Hx.
  rewrite !unshifted_from_nonbonded_force_eq, !switched_from_nonbonded_force_eq.
  unfold getCutoffDistance, getReactionFieldDielectric.
  rewrite !map_charge_of, Hc, He, Hp, Hx. split; reflexivity.
Qed.

Lemma from_nonbonded_force_reads_charges_and_pairs_only_witness :
  SwitchedReactionFieldForce.from_nonbonded_force example_ONE_4PI_EPS0
    (Some example_nonbonded_force) default_switch_width
  = SwitchedReactionFieldForce.from_nonbonded_force example_ONE_4PI_EPS0
      (Some (mkNonbondedForce (12 # 10) 80
               [mkParticle 1 0 0; mkParticle (-1) 0 0; mkParticle (1 # 2) 0 0]
               [mkException 0 1 0 0 0]))
      default_switch_width.
Proof.
  apply (from_nonbonded_force_reads_charges_and_pairs_only example_ONE_4PI_EPS0
           example_nonbonded_force
           (mkNonbondedForce (12 # 10) 80
              [mkParticle 1 0 0; mkParticle (-1) 0 0; mkParticle (1 # 2) 0 0]
              [mkException 0 1 0 0 0])
           default_switch_width); reflexivity.
Defined.

Lemma nonbonded_of_Permutation forces forces' :
  Permutation forces forces' ->
  Permutation (nonbonded_of forces) (nonbonded_of forces').
Proof.
  intros Hperm. unfold nonbonded_of, nonbonded_forces. cbn [getForces].
  apply Permutation_flat_map. exact Hperm.
Qed.

(** X16. What [find_nonbonded_force] does, and so what [from_system] of
    either class does, is the same in whatever order the system lists its
    forces. *)
Theorem find_nonbonded_force_order_independent (ONE_4PI_EPS0 : Q)
    (forces forces' : list Force) (switch_width : option (Quantity 1)) :
  Permutation forces forces' ->
  find_nonbonded_force (mkSystem forces) = find_nonbonded_force (mkSystem forces')
  /\ UnshiftedReactionFieldForce.from_system ONE_4PI_EPS0 (mkSystem forces) switch_width
     = UnshiftedReactionFieldForce.from_system ONE_4PI_EPS0 (mkSystem forces')
         switch_width
  /\ SwitchedReactionFieldForce.from_system ONE_4PI_EPS0 (mkSystem forces) switch_width
     = SwitchedReactionFieldForce.from_system ONE_4PI_EPS0 (mkSystem forces')
         switch_width.
Proof.
  intros Hperm.
  assert (Efind : find_nonbonded_force (mkSystem forces)
                  = find_nonbonded_force (mkSystem forces')).
  { rewrite !find_nonbonded_force_eq.
    change (nonbonded_forces (mkSystem forces)) with (nonbonded_of forces).
    change (nonbonded_forces (mkSystem forces')) with (nonbonded_of forces').
    pose proof (nonbonded_of_Permutation _ _ Hperm) as Hnb.
    destruct (nonbonded_of forces) as [| f [| g rest]].
    - apply Permutation_nil in Hnb. rewrite Hnb. reflexivity.
    - apply Permutation_length_1_inv in Hnb. rewrite Hnb. reflexivity.
    - pose proof (Permutation_length Hnb) as Hlen.
      destruct (nonbonded_of forces') as [| f' [| g' rest']];
        cbn [List.length] in Hlen; try discriminate.
      reflexivity. }
  split; [exact Efind |].
  unfold UnshiftedReactionFieldForce.from_system, SwitchedReactionFieldForce.from_system.
  rewrite Efind. split; reflexivity.
Qed.

Lemma find_nonbonded_force_order_independent_witness :
  find_nonbonded_force (mkSystem (rev (getForces example_system_one)))
  = Return (Some example_nonbonded_force).
Proof.
  rewrite <- (proj1 (find_nonbonded_force_order_independent example_ONE_4PI_EPS0
                       (getForces example_system_one)
                       (rev (getForces example_system_one)) None
                       (Permutation_rev (getForces example_system_one)))).
  reflexivity.
Defined.
